(** * MCQ video generator: a shallow embedding of [main.py]

    The program turns every row of a CSV table into a slide image, a
    narration and a short clip, and joins the clips into one video.  All
    of its work is done by library collaborators (Pillow, gTTS, moviepy,
    pandas, [os]); what the program itself contributes is the text
    bookkeeping of the slide renderer, the duration floor of the clip
    composer, the naming of the intermediate files and the exception
    handling of the driving tool.

    Modelling decisions.
    - Python [str] is [string] (ASCII code points); Python [int] is [Z];
      Python [float] is the primitive binary64 [float].
    - The file system is a finite map from paths to nodes (a directory or
      a file with its content); [os.path.exists] is membership.
    - A library call whose outcome the program cannot determine (will the
      network answer, does the encoder accept the frame, ...) is a field
      of the record [Libs].  Such an oracle reads the whole current world
      and only decides the outcome; the effect on the file system (which
      path is written) is fixed by the model.
    - Exceptions are values of type [exn]; only subclasses of Python's
      [Exception] are modelled (no [KeyboardInterrupt], no task
      cancellation).  [print] and the [close] calls on clips have no
      observable effect here and are left out.
    - Stateful code lives in the monad [M]: world passing plus a raised
      exception. *)

From Stdlib Require Import ZArith List Floats Ascii String Lia.
From stdpp Require Import base option list sorting gmap strings pretty.

Local Open Scope Z_scope.
Set Warnings "-register-all".

(** ** Python strings *)

Module Py.

(** [str.isspace] on the ASCII range: TAB, LF, VT, FF, CR, the four
    separators FS, GS, RS, US, and the space. *)
Definition isspace (a : ascii) : bool :=
  let n := N_of_ascii a in
  ((9 <=? n) && (n <=? 13) || (28 <=? n) && (n <=? 32))%N.

Definition is_empty (s : string) : bool :=
  match s with EmptyString => true | String _ _ => false end.

(** [s.split()]: the maximal runs of non-blank characters. *)
Fixpoint split_go (cur : string) (s : string) : list string :=
  match s with
  | EmptyString => if is_empty cur then [] else [cur]
  | String a s' =>
      if isspace a
      then (if is_empty cur then split_go "" s' else cur :: split_go "" s')
      else split_go (cur +:+ String a "") s'
  end.
Definition split (s : string) : list string := split_go "" s.

(** [sep.join(l)]. *)
Definition join (sep : string) (l : list string) : string :=
  String.concat sep l.

(** [s.split(c)] for a one-character separator: never the empty list. *)
Fixpoint split_on_go (c : ascii) (cur : string) (s : string) : list string :=
  match s with
  | EmptyString => [cur]
  | String a s' =>
      if Ascii.eqb a c then cur :: split_on_go c "" s'
      else split_on_go c (cur +:+ String a "") s'
  end.
Definition split_on (c : ascii) (s : string) : list string :=
  split_on_go c "" s.

Fixpoint lstrip (s : string) : string :=
  match s with
  | EmptyString => ""
  | String a s' => if isspace a then lstrip s' else s
  end.

Fixpoint rstrip (s : string) : string :=
  match s with
  | EmptyString => ""
  | String a s' =>
      let r := rstrip s' in
      if is_empty r && isspace a then "" else String a r
  end.

(** [s.strip()]. *)
Definition strip (s : string) : string := lstrip (rstrip s).

Fixpoint startswith (p s : string) : bool :=
  match p, s with
  | EmptyString, _ => true
  | String a p', String b s' => Ascii.eqb a b && startswith p' s'
  | String _ _, EmptyString => false
  end.

Definition endswith (p s : string) : bool :=
  startswith (String.rev p) (String.rev s).

End Py.

(** ** Paths *)

(** [posixpath.join] for two components. *)
Definition os_path_join (a b : string) : string :=
  if Py.startswith "/" b then b
  else if Py.is_empty a || Py.endswith "/" a then a +:+ b
  else a +:+ "/" +:+ b.

(** ** Exceptions *)

Inductive exn_class :=
| FileNotFoundError | IsADirectoryError | FileExistsError | PermissionError
| AttributeError | ValueError | AssertionError | RuntimeError
| EmptyDataError | OtherException.

(** An exception object: its class and [str(e)]. *)
Record exn := Exn { exn_cls : exn_class; exn_str : string }.

Definition is_FileNotFoundError (e : exn) : bool :=
  match exn_cls e with FileNotFoundError => true | _ => false end.
Definition is_AttributeError (e : exn) : bool :=
  match exn_cls e with AttributeError => true | _ => false end.
Definition is_EmptyDataError (e : exn) : bool :=
  match exn_cls e with EmptyDataError => true | _ => false end.

Inductive result (A : Type) :=
| Ok (a : A)
| Raise (e : exn).
Arguments Ok {A} a.
Arguments Raise {A} e.

(** ** Data model *)

(** A cell of a table row as [DataFrame.values.tolist()] yields it: a
    string, or the float NaN that pandas puts where a record is shorter
    than the header. *)
Inductive cell :=
| CStr (s : string)
| CNaN.

(** [if not isinstance(text, str): text = str(text)]: a string stays as it
    is, NaN becomes its printed form. *)
Definition py_str (c : cell) : string :=
  match c with CStr s => s | CNaN => "nan" end.
Definition isna (c : cell) : bool :=
  match c with CStr _ => false | CNaN => true end.

Definition rgb : Type := Z * Z * Z.

(** One [draw.text] call on a slide. *)
Record drawn := Drawn { dr_x : Z; dr_y : Z; dr_line : string; dr_fill : rgb }.

(** A Pillow image: canvas size, background, and the text drawn so far. *)
Record image := Image
  { im_width : Z; im_height : Z; im_bg : rgb; im_drawn : list drawn }.

Record font := Font { ft_path : string; ft_size : Z }.

(** What a file holds. *)
Inductive content :=
| CImage (im : image)
| CAudio (text lang : string)
| CClip (frame : content) (sound : option content)
        (duration : option float) (fps : option Z)
| CVideo (parts : list content)
| CPartial
| COther.

Inductive node :=
| Dir
| File (c : content).

(** moviepy objects. *)
Record audio_clip := AudioClip
  { ac_source : content; ac_duration : option float }.
Record video_clip := VideoClip
  { vc_frame : content; vc_audio : option content;
    vc_duration : option float; vc_fps : option Z }.

Definition set_audio (v : video_clip) (a : audio_clip) : video_clip :=
  VideoClip (vc_frame v) (Some (ac_source a)) (vc_duration v) (vc_fps v).
Definition set_duration (v : video_clip) (d : float) : video_clip :=
  VideoClip (vc_frame v) (vc_audio v) (Some d) (vc_fps v).
Definition set_fps (v : video_clip) (fps : Z) : video_clip :=
  VideoClip (vc_frame v) (vc_audio v) (vc_duration v) (Some fps).
Definition encoded (v : video_clip) : content :=
  CClip (vc_frame v) (vc_audio v) (vc_duration v) (vc_fps v).

(** The calls that leave the process, in the order they were made. *)
Inductive event :=
| EvMakedirs (p : string)
| EvReadCsv (p : string)
| EvRender (p : string)
| EvNarrate (text lang p : string)
| EvEncode (image_path audio_path video_path : string)
| EvConcat (video_paths : list string) (final_video_path : string)
| EvRemove (p : string).

Record World := MkWorld { fs : gmap string node; trace : list event }.

Definition set_fs (f : gmap string node → gmap string node) (w : World) : World :=
  MkWorld (f (fs w)) (trace w).
Definition add_event (ev : event) (w : World) : World :=
  MkWorld (fs w) (trace w ++ [ev]).

(** How a library call that writes a file ended. *)
Inductive write_outcome :=
| Written
| WriteFailed (e : exn) (partial : bool).

(** The collaborators.  [None] / [Written] / [inr] is the normal return. *)
Record Libs := MkLibs
  { os_path_abspath : string → string;
    os_path_splitext : string → string * string;
    os_makedirs_error : World → string → option exn;
    os_remove_error : World → string → option exn;
    pd_read_csv : World → string → exn + list (list cell);
    Image_new : World → Z → Z → rgb → option exn;
    ImageFont_truetype : World → string → Z → option exn;
    textwrap_fill : string → Z → string;
    draw_textbbox : World → font → Z → Z → string → option exn;
    draw_textlength : World → font → string → option exn;
    draw_text : World → font → Z → Z → string → rgb → option exn;
    image_save : World → image → string → write_outcome;
    gTTS_init : World → string → string → option exn;
    gTTS_save : World → string → string → string → write_outcome;
    AudioFileClip : World → string → exn + option float;
    ImageClip : World → string → option exn;
    write_videofile : World → content → string → write_outcome;
    VideoFileClip : World → string → option exn;
    concatenate_videoclips : World → list content → option exn }.

(** ** The monad of the program: world passing with exceptions *)

Definition M (A : Type) : Type := World → result A * World.

Definition ret {A} (a : A) : M A := λ w, (Ok a, w).
Definition raise {A} (e : exn) : M A := λ w, (Raise e, w).
Definition bind {A B} (m : M A) (k : A → M B) : M B :=
  λ w, match m w with
       | (Ok a, w') => k a w'
       | (Raise e, w') => (Raise e, w')
       end.
(** [try: m  except Exception as e: h e]. *)
Definition try_except {A} (m : M A) (h : exn → M A) : M A :=
  λ w, match m w with
       | (Ok a, w') => (Ok a, w')
       | (Raise e, w') => h e w'
       end.

Declare Scope py_scope.
Delimit Scope py_scope with py.
Notation "x <- m ;; k" := (bind m (λ x, k))
  (at level 100, m at next level, right associativity) : py_scope.
Notation "m ;; k" := (bind m (λ _, k))
  (at level 100, right associativity) : py_scope.
Local Open Scope py_scope.

(** An in-memory library call: it may raise, it changes nothing. *)
Definition call (f : World → option exn) : M unit :=
  λ w, (match f w with None => Ok () | Some e => Raise e end, w).
Definition call_value {A} (f : World → exn + A) : M A :=
  λ w, (match f w with inr a => Ok a | inl e => Raise e end, w).
Definition log (ev : event) : M unit := λ w, (Ok (), add_event ev w).

(** ** The [os] primitives *)

Definition os_path_exists (p : string) : M bool :=
  λ w, (Ok (bool_decide (is_Some (fs w !! p))), w).

(** Opening [p] for reading. *)
Definition read_file (p : string) : M content :=
  λ w, match fs w !! p with
       | Some (File c) => (Ok c, w)
       | Some Dir =>
           (Raise (Exn IsADirectoryError ("[Errno 21] Is a directory: '" +:+ p +:+ "'")), w)
       | None =>
           (Raise (Exn FileNotFoundError ("[Errno 2] No such file or directory: '" +:+ p +:+ "'")), w)
       end.

(** A library writes [c] to [p]: a directory in the way always fails; else
    the oracle's outcome decides, and a failure may leave a partial file. *)
Definition write_file (p : string) (c : content) (o : write_outcome) : M unit :=
  λ w, match fs w !! p with
       | Some Dir =>
           (Raise (Exn IsADirectoryError ("[Errno 21] Is a directory: '" +:+ p +:+ "'")), w)
       | _ =>
           match o with
           | Written => (Ok (), set_fs (insert p (File c)) w)
           | WriteFailed e partial =>
               (Raise e, if partial then set_fs (insert p (File CPartial)) w else w)
           end
       end.

(** A library call that writes [c] to [p]. *)
Definition lib_write (p : string) (c : content)
    (o : World → write_outcome) : M unit :=
  λ w, write_file p c (o w) w.

(** ** Constants *)

Definition DEFAULT_IMAGE_WIDTH : Z := 1920.
Definition DEFAULT_IMAGE_HEIGHT : Z := 1080.
Definition DEFAULT_BACKGROUND_COLOR : rgb := (0, 127, 215).
Definition DEFAULT_FONT_COLOR : rgb := (255, 255, 255).
Definition DEFAULT_FONT_SIZE : Z := 70.
Definition DEFAULT_LINE_SPACING : Z := 10.
Definition DEFAULT_MARGIN : Z := 80.
Definition DEFAULT_TEXT_WRAP_WIDTH : Z := 45.
Definition DEFAULT_FPS : Z := 24.
Definition DEFAULT_LANGUAGE : string := "en".
Definition DEFAULT_FONT_PATH : string := "HindVadodara-Light.ttf".

(** The arguments of the tool. *)
Record Request := MkRequest
  { csv_file_path : string;
    output_filename : string;
    language : string;
    font_path : string;
    font_size : Z;
    img_width : Z;
    img_height : Z;
    bg_color_rgb : rgb;
    font_color_rgb : rgb }.

Definition default_request (csv : string) : Request :=
  MkRequest csv "Gyan_Dariyo_final_video.mp4" DEFAULT_LANGUAGE DEFAULT_FONT_PATH
    DEFAULT_FONT_SIZE DEFAULT_IMAGE_WIDTH DEFAULT_IMAGE_HEIGHT
    DEFAULT_BACKGROUND_COLOR DEFAULT_FONT_COLOR.

(** ** The program *)

Section Program.

Variable L : Libs.

(** *** [os.makedirs(p, exist_ok=True)] and [os.remove(p)] *)

Definition os_makedirs (p : string) : M unit :=
  log (EvMakedirs p) ;;
  λ w, match os_makedirs_error L w p with
       | Some e => (Raise e, w)
       | None =>
           match fs w !! p with
           | Some (File _) =>
               (Raise (Exn FileExistsError ("[Errno 17] File exists: '" +:+ p +:+ "'")), w)
           | Some Dir => (Ok (), w)
           | None => (Ok (), set_fs (insert p Dir) w)
           end
       end.

Definition os_remove (p : string) : M unit :=
  log (EvRemove p) ;;
  λ w, match os_remove_error L w p with
       | Some e => (Raise e, w)
       | None =>
           match fs w !! p with
           | Some (File _) => (Ok (), set_fs (delete p) w)
           | Some Dir =>
               (Raise (Exn IsADirectoryError ("[Errno 21] Is a directory: '" +:+ p +:+ "'")), w)
           | None =>
               (Raise (Exn FileNotFoundError ("[Errno 2] No such file or directory: '" +:+ p +:+ "'")), w)
           end
       end.

(** *** Slide renderer: [create_image_for_mcq] *)

(** The loop state: the image, [y_position], [text_content]. *)
Definition slide_state : Type := image * Z * string.

Definition add_drawn (im : image) (d : drawn) : image :=
  Image (im_width im) (im_height im) (im_bg im) (im_drawn im ++ [d]).

(** The [try: draw.textbbox ... except AttributeError: draw.textlength]
    block; the sizes it computes are not used. *)
Definition measure_line (ft : font) (x y : Z) (line : string) : M unit :=
  try_except (call (λ w, draw_textbbox L w ft x y line))
    (λ e, if is_AttributeError e
          then call (λ w, draw_textlength L w ft line)
          else raise e).

(** [for line in lines: ...] *)
Fixpoint draw_lines (ft : font) (font_color : rgb)
    (font_size line_spacing margin : Z)
    (lines : list string) (st : slide_state) : M slide_state :=
  match lines with
  | [] => ret st
  | line :: rest =>
      let '(im, y_position, text_content) := st in
      measure_line ft margin y_position line ;;
      call (λ w, draw_text L w ft margin y_position line font_color) ;;
      draw_lines ft font_color font_size line_spacing margin rest
        (add_drawn im (Drawn margin y_position line font_color),
         y_position + (font_size + line_spacing),
         text_content +:+ line +:+ " ")
  end.

(** [for text in data_row: ...] *)
Fixpoint draw_cells (ft : font) (font_color : rgb)
    (font_size line_spacing margin wrap_width : Z)
    (data_row : list cell) (st : slide_state) : M slide_state :=
  match data_row with
  | [] => ret st
  | c :: rest =>
      let text := py_str c in
      let text := Py.join " " (Py.split text) in
      if Py.is_empty text
      then draw_cells ft font_color font_size line_spacing margin wrap_width rest st
      else
        if wrap_width <=? 0
        then raise (Exn ValueError
               ("invalid width " +:+ pretty wrap_width +:+ " (must be > 0)"))
        else
          let wrapped_text := textwrap_fill L text wrap_width in
          let lines := Py.split_on "010"%char wrapped_text in
          st' <- draw_lines ft font_color font_size line_spacing margin lines st ;;
          let '(im, y_position, text_content) := st' in
          draw_cells ft font_color font_size line_spacing margin wrap_width rest
            (im, y_position + line_spacing * 2, text_content)
  end.

Definition create_image_for_mcq (data_row : list cell) (image_path : string)
    (width height : Z) (bg_color font_color : rgb) (font_size : Z)
    (font_path : string) (line_spacing margin wrap_width : Z) : M string :=
  try_except
    (call (λ w, Image_new L w width height bg_color) ;;
     let image := Image width height bg_color [] in
     font_exists <- os_path_exists font_path ;;
     if negb font_exists
     then raise (Exn FileNotFoundError ("Font file not found at: " +:+ font_path))
     else
       call (λ w, ImageFont_truetype L w font_path font_size) ;;
       let ft := Font font_path font_size in
       st <- draw_cells ft font_color font_size line_spacing margin wrap_width
               data_row (image, margin, "") ;;
       let '(image, _, text_content) := st in
       log (EvRender image_path) ;;
       lib_write image_path (CImage image)
         (λ w, image_save L w image image_path) ;;
       ret (Py.strip text_content))
    (λ e, if is_FileNotFoundError e then raise e
          else raise (Exn RuntimeError
                 ("Error creating image " +:+ image_path +:+ ": " +:+ exn_str e))).

(** *** Narrator: [create_audio_for_mcq] *)

Definition create_audio_for_mcq (text audio_path lang : string) : M unit :=
  try_except
    (call (λ w, gTTS_init L w text lang) ;;
     log (EvNarrate text lang audio_path) ;;
     lib_write audio_path (CAudio text lang)
       (λ w, gTTS_save L w text lang audio_path))
    (λ e, raise (Exn RuntimeError
            ("Error creating audio " +:+ audio_path +:+ " with gTTS: " +:+ exn_str e))).

(** *** Clip composer: [create_video_clip] *)

(** [if audio_duration is None or audio_duration <= 0: audio_duration = 1.0] *)
Definition effective_duration (audio_duration : option float) : float :=
  match audio_duration with
  | None => 1%float
  | Some d => if (d <=? 0)%float then 1%float else d
  end.

Definition create_video_clip (image_path audio_path video_path : string)
    (fps : Z) : M float :=
  try_except
    (image_exists <- os_path_exists image_path ;;
     if negb image_exists
     then raise (Exn FileNotFoundError ("Image file not found: " +:+ image_path))
     else
       audio_exists <- os_path_exists audio_path ;;
       if negb audio_exists
       then raise (Exn FileNotFoundError ("Audio file not found: " +:+ audio_path))
       else
         sound <- read_file audio_path ;;
         d <- call_value (λ w, AudioFileClip L w audio_path) ;;
         let audio_clip := AudioClip sound d in
         let audio_duration := effective_duration (ac_duration audio_clip) in
         frame <- read_file image_path ;;
         call (λ w, ImageClip L w image_path) ;;
         let image_clip := VideoClip frame None None None in
         let video_clip := set_audio image_clip audio_clip in
         let video_clip := set_duration video_clip audio_duration in
         let video_clip := set_fps video_clip fps in
         log (EvEncode image_path audio_path video_path) ;;
         lib_write video_path (encoded video_clip)
           (λ w, write_videofile L w (encoded video_clip) video_path) ;;
         ret audio_duration)
    (λ e, raise (Exn RuntimeError
            ("Error creating video clip " +:+ video_path +:+ ": " +:+ exn_str e))).

(** *** Concatenator: [concatenate_videos] *)

(** [for path in video_paths: ... clips.append(VideoFileClip(path))] *)
Fixpoint open_clips (video_paths : list string) (clips : list content)
    : M (list content) :=
  match video_paths with
  | [] => ret clips
  | path :: rest =>
      path_exists <- os_path_exists path ;;
      if negb path_exists
      then raise (Exn FileNotFoundError
             ("Video clip not found for concatenation: " +:+ path))
      else
        c <- read_file path ;;
        call (λ w, VideoFileClip L w path) ;;
        open_clips rest (clips ++ [c])
  end.

Definition concatenate_videos (video_paths : list string)
    (final_video_path : string) : M unit :=
  log (EvConcat video_paths final_video_path) ;;
  match video_paths with
  | [] => raise (Exn ValueError "No video paths provided for concatenation.")
  | _ =>
      try_except
        (clips <- open_clips video_paths [] ;;
         call (λ w, concatenate_videoclips L w clips) ;;
         lib_write final_video_path (CVideo clips)
           (λ w, write_videofile L w (CVideo clips) final_video_path))
        (λ e, raise (Exn RuntimeError
                ("Error concatenating videos to " +:+ final_video_path
                 +:+ ": " +:+ exn_str e)))
  end.

(** *** The driving tool: [create_mcq_video] *)

(** [data_frame.dropna(how='all')] and [data_frame.empty].  A frame is
    its list of rows; [read_csv] never yields a frame without columns
    (it raises [EmptyDataError] instead). *)
Definition dropna_all (data_frame : list (list cell)) : list (list cell) :=
  List.filter (λ row, negb (forallb isna row)) data_frame.
Definition df_empty (data_frame : list (list cell)) : bool :=
  match data_frame with [] => true | _ :: _ => false end.

Definition msg_csv_not_found (csv : string) : string :=
  "Error: Input CSV file not found at '" +:+ csv +:+ "'".
Definition msg_font_not_found (font : string) : string :=
  "Error: Font file not found at '" +:+ font +:+ "'. Please provide a valid path.".
Definition msg_no_rows (csv : string) : string :=
  "Error: CSV file '" +:+ csv +:+ "' seems to be empty or contains no valid data rows.".
Definition msg_csv_empty (csv : string) : string :=
  "Error: CSV file '" +:+ csv +:+ "' is empty.".
Definition msg_csv_unreadable (csv : string) (e : exn) : string :=
  "Error reading CSV file '" +:+ csv +:+ "': " +:+ exn_str e.
Definition msg_no_clips : string :=
  "Error: No individual video clips were successfully generated. Final video cannot be created.".
Definition msg_concat_failed (e : exn) : string :=
  "Error during final video concatenation: " +:+ exn_str e.
Definition msg_unexpected (e : exn) : string :=
  "Error: An unexpected error occurred during video generation: " +:+ exn_str e.

(** Section 2 of the tool, "Load Data": [inl] is an early [return] of
    the tool with that message, [inr] is [data_list]. *)
Definition load_data (csv : string) : M (string + list (list cell)) :=
  try_except
    (log (EvReadCsv csv) ;;
     data_frame <- call_value (λ w, pd_read_csv L w csv) ;;
     let data_frame := dropna_all data_frame in
     if df_empty data_frame then ret (inl (msg_no_rows csv))
     else ret (inr data_frame))
    (λ e, if is_EmptyDataError e then ret (inl (msg_csv_empty csv))
          else ret (inl (msg_csv_unreadable csv e))).

Definition image_file (output_dir : string) (item_num : nat) : string :=
  os_path_join output_dir ("mcq_img_" +:+ pretty item_num +:+ ".png").
Definition audio_file (output_dir : string) (item_num : nat) : string :=
  os_path_join output_dir ("mcq_audio_" +:+ pretty item_num +:+ ".mp3").
Definition video_file (output_dir : string) (item_num : nat) : string :=
  os_path_join output_dir ("mcq_video_" +:+ pretty item_num +:+ ".mp4").

(** [if os.path.exists(p): os.remove(p)] *)
Definition remove_if_exists (p : string) : M unit :=
  p_exists <- os_path_exists p ;;
  if p_exists then os_remove p else ret ().

(** The body of the per-row loop.  [Some (video_file, clip_duration)]
    when the row reached [individual_video_paths.append(video_file)],
    [None] when it ended in one of the two [continue]s. *)
Definition process_item (rq : Request) (output_dir : string)
    (idx : nat) (data_row : list cell) : M (option (string * float)) :=
  let item_num := (idx + 1)%nat in
  let image_file := image_file output_dir item_num in
  let audio_file := audio_file output_dir item_num in
  let video_file := video_file output_dir item_num in
  try_except
    (text_for_speech <-
       create_image_for_mcq data_row image_file (img_width rq) (img_height rq)
         (bg_color_rgb rq) (font_color_rgb rq) (font_size rq) (font_path rq)
         DEFAULT_LINE_SPACING DEFAULT_MARGIN DEFAULT_TEXT_WRAP_WIDTH ;;
     if Py.is_empty text_for_speech then ret None
     else
       create_audio_for_mcq text_for_speech audio_file (language rq) ;;
       clip_duration <- create_video_clip image_file audio_file video_file DEFAULT_FPS ;;
       ret (Some (video_file, clip_duration)))
    (λ e,
       remove_if_exists image_file ;;
       remove_if_exists audio_file ;;
       remove_if_exists video_file ;;
       ret None).

(** [for idx, data_row in enumerate(data_list): ...], started at index
    [idx] with the accumulators [individual_video_paths] and
    [total_duration]. *)
Fixpoint process_items (rq : Request) (output_dir : string) (idx : nat)
    (data_list : list (list cell))
    (individual_video_paths : list string) (total_duration : float)
    : M (list string * float) :=
  match data_list with
  | [] => ret (individual_video_paths, total_duration)
  | data_row :: rest =>
      r <- process_item rq output_dir idx data_row ;;
      match r with
      | Some (video_file, clip_duration) =>
          process_items rq output_dir (S idx) rest
            (individual_video_paths ++ [video_file])
            (total_duration + clip_duration)%float
      | None =>
          process_items rq output_dir (S idx) rest
            individual_video_paths total_duration
      end
  end.

Definition output_dir_of (rq : Request) : string :=
  let output_base_name := fst (os_path_splitext L (output_filename rq)) in
  os_path_abspath L ("./" +:+ output_base_name +:+ "_output").

Definition final_video_full_path (rq : Request) : string :=
  os_path_join (output_dir_of rq) (output_filename rq).

(** Sections 3 to 6 of the tool. *)
Definition process_and_concatenate (rq : Request)
    (data_list : list (list cell)) : M string :=
  acc <- process_items rq (output_dir_of rq) 0 data_list [] 0%float ;;
  let '(individual_video_paths, total_duration) := acc in
  match individual_video_paths with
  | [] => ret msg_no_clips
  | _ :: _ =>
      try_except
        (concatenate_videos individual_video_paths (final_video_full_path rq) ;;
         ret (final_video_full_path rq))
        (λ e, ret (msg_concat_failed e))
  end.

(** The [try] block of the tool. *)
Definition create_mcq_video_body (rq : Request) : M string :=
  csv_exists <- os_path_exists (csv_file_path rq) ;;
  if negb csv_exists then ret (msg_csv_not_found (csv_file_path rq))
  else
    font_exists <- os_path_exists (font_path rq) ;;
    if negb font_exists then ret (msg_font_not_found (font_path rq))
    else
      os_makedirs (output_dir_of rq) ;;
      loaded <- load_data (csv_file_path rq) ;;
      match loaded with
      | inl message => ret message
      | inr data_list => process_and_concatenate rq data_list
      end.

Definition create_mcq_video (rq : Request) : M string :=
  try_except (create_mcq_video_body rq) (λ e, ret (msg_unexpected e)).

End Program.

(** ** Vocabulary of the statements *)

(** [' '.join(text.split())] *)
Definition normalize (s : string) : string := Py.join " " (Py.split s).

(** The lines of a slide, said over the row as a whole: the cells that are
    not empty after normalisation, each wrapped on its own. *)
Definition slide_lines (L : Libs) (row : list cell) (wrap_width : Z) : list string :=
  flat_map (λ text, Py.split_on "010"%char (textwrap_fill L text wrap_width))
    (List.filter (λ text, negb (Py.is_empty text))
       (List.map (λ c, normalize (py_str c)) row)).

(** The text to narrate: the lines joined by one space, stripped. *)
Definition slide_text (L : Libs) (row : list cell) (wrap_width : Z) : string :=
  Py.strip (Py.join " " (slide_lines L row wrap_width)).

(** Every cell of the row is empty after normalisation. *)
Definition all_blank (row : list cell) : bool :=
  forallb (λ c, Py.is_empty (normalize (py_str c))) row.

(** What [text_content += line + " "] builds over the lines. *)
Fixpoint spaced (lines : list string) : string :=
  match lines with
  | [] => ""
  | line :: rest => line +:+ " " +:+ spaced rest
  end.

(** The three intermediate files of item [n]. *)
Definition own_path (dir : string) (n : nat) (q : string) : Prop :=
  q = image_file dir n ∨ q = audio_file dir n ∨ q = video_file dir n.

(** The items (1-based) that reached [individual_video_paths.append], in
    the order the loop met them; the loop starts at index [idx] in world
    [w]. *)
Fixpoint clipped_items (L : Libs) (rq : Request) (dir : string) (idx : nat)
    (data_list : list (list cell)) (w : World) : list nat :=
  match data_list with
  | [] => []
  | data_row :: rest =>
      match process_item L rq dir idx data_row w with
      | (Ok (Some _), w') => (idx + 1)%nat :: clipped_items L rq dir (S idx) rest w'
      | (Ok None, w') => clipped_items L rq dir (S idx) rest w'
      | (Raise _, _) => []
      end
  end.

(** A computation that leaves the world as it found it. *)
Definition pure_m {A} (m : M A) : Prop := ∀ w, (m w).2 = w.

(** Whatever [m] returns or raises, the world it leaves is [R]-related to
    the world it found. *)
Definition preserves (R : relation World) {A} (m : M A) : Prop :=
  ∀ w, R w (m w).2.

(** The calls item [n] may cause. *)
Definition item_event (dir : string) (n : nat) (ev : event) : Prop :=
  match ev with
  | EvRender p => p = image_file dir n
  | EvNarrate _ _ p => p = audio_file dir n
  | EvEncode i a v =>
      i = image_file dir n ∧ a = audio_file dir n ∧ v = video_file dir n
  | EvRemove p => own_path dir n p
  | _ => False
  end.

(** [w'] differs from [w] by work on the items in [P] only: other paths
    are as they were, and every call made in between belongs to such an
    item. *)
Definition effect_on (dir : string) (P : nat → Prop) (w w' : World) : Prop :=
  (∀ q, (∀ n, P n → ¬ own_path dir n q) → fs w' !! q = fs w !! q)
  ∧ ∃ evs, trace w' = trace w ++ evs
           ∧ Forall (λ ev, ∃ n, P n ∧ item_event dir n ev) evs.

(** Item [n] is complete in [w] and was made from [row]: its image shows
    the lines of the row, its narration speaks the slide text of the row,
    and its clip shows that image with that narration. *)
Definition item_done (L : Libs) (rq : Request) (dir : string) (n : nat)
    (row : list cell) (w : World) : Prop :=
  let text := slide_text L row DEFAULT_TEXT_WRAP_WIDTH in
  ∃ im d,
    dr_line <$> im_drawn im = slide_lines L row DEFAULT_TEXT_WRAP_WIDTH
    ∧ fs w !! image_file dir n = Some (File (CImage im))
    ∧ fs w !! audio_file dir n = Some (File (CAudio text (language rq)))
    ∧ fs w !! video_file dir n =
        Some (File (CClip (CImage im) (Some (CAudio text (language rq)))
                      (Some d) (Some DEFAULT_FPS))).

(** The tool called in [w] gets past its pre-flight sections and enters
    the row loop with [data_list] in world [w0]. *)
Definition loop_entry (L : Libs) (rq : Request) (w : World)
    (data_list : list (list cell)) (w0 : World) : Prop :=
  is_Some (fs w !! csv_file_path rq)
  ∧ is_Some (fs w !! font_path rq)
  ∧ ∃ w1, os_makedirs L (output_dir_of L rq) w = (Ok (), w1)
          ∧ load_data L (csv_file_path rq) w1 = (Ok (inr data_list), w0).

(** Nothing that is in [w] is missing in [w']. *)
Definition keeps_files (w w' : World) : Prop :=
  ∀ q, is_Some (fs w !! q) → is_Some (fs w' !! q).

(** [w'] has the calls of [w] and at least its files. *)
Definition grows (w w' : World) : Prop :=
  trace w' = trace w ∧ keeps_files w w'.

(** A step that at most renders the slide of item [n] and removes files:
    it asks for no narration and no clip, and it creates no file other
    than the image of the item. *)
Definition quiet (dir : string) (n : nat) (w w' : World) : Prop :=
  (∀ q, q ≠ image_file dir n → fs w !! q = None → fs w' !! q = None)
  ∧ ∃ evs, trace w' = trace w ++ evs
           ∧ Forall (λ ev, ev = EvRender (image_file dir n)
                           ∨ ∃ p, ev = EvRemove p) evs.

(** The calls into the concatenator and the removals recorded in a trace. *)
Definition concat_calls (tr : list event) : list (list string * string) :=
  omap (λ ev, match ev with EvConcat ps f => Some (ps, f) | _ => None end) tr.
Definition removed_paths (tr : list event) : list string :=
  omap (λ ev, match ev with EvRemove p => Some p | _ => None end) tr.

(** The global failure conditions of the tool. *)
Inductive preflight_failure :=
| InputMissing
| FontMissing
| TableEmpty
| InputUnreadable (e : exn).

Definition same_condition (f g : preflight_failure) : bool :=
  match f, g with
  | InputMissing, InputMissing | FontMissing, FontMissing
  | TableEmpty, TableEmpty | InputUnreadable _, InputUnreadable _ => true
  | _, _ => false
  end.


Definition preflight_message (rq : Request) (f : preflight_failure) : string :=
  match f with
  | InputMissing => msg_csv_not_found (csv_file_path rq)
  | FontMissing => msg_font_not_found (font_path rq)
  | TableEmpty => msg_no_rows (csv_file_path rq)
  | InputUnreadable e =>
      if is_EmptyDataError e then msg_csv_empty (csv_file_path rq)
      else msg_csv_unreadable (csv_file_path rq) e
  end.

(** [w'] differs from [w] only at paths in [S], and the calls made in
    between all satisfy [Q]. *)
Definition touches (S : string → Prop) (Q : event → Prop) (w w' : World) : Prop :=
  (∀ q, ¬ S q → fs w' !! q = fs w !! q)
  ∧ ∃ evs, trace w' = trace w ++ evs ∧ Forall Q evs.

(** The paths the tool may write for a request: its output directory,
    the three files of each item, and the final video. *)
Definition tool_path (L : Libs) (rq : Request) (q : string) : Prop :=
  q = output_dir_of L rq
  ∨ q = final_video_full_path L rq
  ∨ ∃ n, own_path (output_dir_of L rq) n q.

(** The calls the tool may make for a request. *)
Definition tool_event (L : Libs) (rq : Request) (ev : event) : Prop :=
  let dir := output_dir_of L rq in
  match ev with
  | EvMakedirs p => p = dir
  | EvReadCsv p => p = csv_file_path rq
  | EvRender p => ∃ n, p = image_file dir n
  | EvNarrate text lang p =>
      Py.is_empty text = false ∧ lang = language rq ∧ ∃ n, p = audio_file dir n
  | EvEncode i a v =>
      ∃ n, i = image_file dir n ∧ a = audio_file dir n ∧ v = video_file dir n
  | EvConcat ps f => ps ≠ [] ∧ f = final_video_full_path L rq
  | EvRemove p => ∃ n, own_path dir n p
  end.

(** Libraries that never fail: every call returns normally, in every
    world.  ([pd.read_csv] and [os.makedirs] are not constrained here.) *)
Record Benign (L : Libs) : Prop := MkBenign
  { benign_new : ∀ w a b c, Image_new L w a b c = None;
    benign_font : ∀ w p z, ImageFont_truetype L w p z = None;
    benign_bbox : ∀ w ft x y l, draw_textbbox L w ft x y l = None;
    benign_text : ∀ w ft x y l c, draw_text L w ft x y l c = None;
    benign_save : ∀ w im p, image_save L w im p = Written;
    benign_tts : ∀ w t l, gTTS_init L w t l = None;
    benign_tts_save : ∀ w t l p, gTTS_save L w t l p = Written;
    benign_audio : ∀ w p, ∃ d, AudioFileClip L w p = inr d;
    benign_image : ∀ w p, ImageClip L w p = None;
    benign_encode : ∀ w c p, write_videofile L w c p = Written;
    benign_video : ∀ w p, VideoFileClip L w p = None;
    benign_join : ∀ w cs, concatenate_videoclips L w cs = None }.

(** The rows that have something to narrate. *)
Definition narratable (L : Libs) (row : list cell) : bool :=
  negb (Py.is_empty (slide_text L row DEFAULT_TEXT_WRAP_WIDTH)).

(** Between [w] and [w'] files were only added or replaced by files:
    every path holds what it held, or holds a file. *)
Definition adds_files (w w' : World) : Prop :=
  ∀ q, fs w' !! q = fs w !! q ∨ ∃ c, fs w' !! q = Some (File c).

(** ** A concrete environment

    Used to run the program on explicit inputs: the working directory is
    [/work], every library call succeeds, narrations last 2.5 seconds, and
    the texts are short enough for [textwrap.fill] to return them as they
    are. *)

Module Demo.

(** [os.path.abspath] for a relative name in [/work]. *)
Definition abspath (p : string) : string :=
  match p with
  | String "/" _ => p
  | String "." (String "/" rest) => "/work/" +:+ rest
  | _ => "/work/" +:+ p
  end.

(** [os.path.splitext] for a bare file name: cut at the last dot that is
    not the first character. *)
Fixpoint splitext_go (root : string) (seen : string) (s : string)
    : string * string :=
  match s with
  | EmptyString => (root, seen)
  | String a s' =>
      if Ascii.eqb a "." && negb (Py.is_empty (root +:+ seen))
      then splitext_go (root +:+ seen) (String a "") s'
      else splitext_go root (seen +:+ String a "") s'
  end.
Definition splitext (p : string) : string * string :=
  match splitext_go "" "" p with
  | (EmptyString, seen) => (seen, "")
  | (root, ext) => (root, ext)
  end.

Definition libs_with (table : list (list cell)) (narration : write_outcome)
    (joining : option exn) : Libs :=
  {| os_path_abspath := abspath;
     os_path_splitext := splitext;
     os_makedirs_error := λ _ _, None;
     os_remove_error := λ _ _, None;
     pd_read_csv := λ _ _, inr table;
     Image_new := λ _ _ _ _, None;
     ImageFont_truetype := λ _ _ _, None;
     textwrap_fill := λ text _, text;
     draw_textbbox := λ _ _ _ _ _, None;
     draw_textlength := λ _ _ _, None;
     draw_text := λ _ _ _ _ _ _, None;
     image_save := λ _ _ _, Written;
     gTTS_init := λ _ _ _, None;
     gTTS_save := λ _ _ _ _, narration;
     AudioFileClip := λ _ _, inr (Some 2.5%float);
     ImageClip := λ _ _, None;
     write_videofile := λ _ _ _, Written;
     VideoFileClip := λ _ _, None;
     concatenate_videoclips := λ _ _, joining |}.

Definition libs (table : list (list cell)) : Libs :=
  libs_with table Written None.

(** The same, except that the narration service is unreachable. *)
Definition libs_offline (table : list (list cell)) : Libs :=
  libs_with table (WriteFailed (Exn OtherException "Failed to connect") true) None.

(** The same as [libs], except that joining the clips fails. *)
Definition libs_no_join (table : list (list cell)) : Libs :=
  libs_with table Written (Some (Exn OtherException "codec error")).

Definition request : Request :=
  MkRequest "quiz.csv" "quiz.mp4" "en" "font.ttf" 70 1920 1080
    DEFAULT_BACKGROUND_COLOR DEFAULT_FONT_COLOR.

(** A file system with the table and the font. *)
Definition disk : gmap string node :=
  <["quiz.csv" := File COther]> (<["font.ttf" := File COther]> ∅).

Definition world : World := MkWorld disk [].

Definition two_rows : list (list cell) :=
  [ [CStr "Q1: 1+1?"; CStr "A:1"; CStr "B:2"];
    [CStr "Q2: capital of  France?"; CStr "A:Paris"; CStr "B:Rome"] ].

(** A table whose first row has only blank cells. *)
Definition blank_then_row : list (list cell) :=
  [ [CStr ""; CStr "  "]; [CStr "Q2"; CStr "A"] ].

(** The output directory already holds a directory named like the first
    slide image. *)
Definition world_blocked : World :=
  MkWorld (<["/work/quiz_output/mcq_img_1.png" := Dir]> disk) [].

(** A file system that already holds a slide and its narration. *)
Definition world_with_media : World :=
  MkWorld (<["slide.png" := File (CImage (Image 1920 1080 (0, 127, 215) []))]>
            (<["speech.mp3" := File (CAudio "Q1" "en")]> disk)) [].

(** Neither the table nor the font is there. *)
Definition world_empty : World := MkWorld ∅ [].


End Demo.

(** * Properties *)

Local Open Scope py_scope.

(** ** Strings *)

Section Strings.

Lemma sapp_cons (a : ascii) (s t : string) :
  String a s +:+ t = String a (s +:+ t).
Proof. reflexivity. Qed.

Lemma sapp_nil_l (s : string) : "" +:+ s = s.
Proof. reflexivity. Qed.

Lemma sapp_nil_r (s : string) : s +:+ "" = s.
Proof. induction s as [|a s IH]; [done|]. by rewrite sapp_cons, IH. Qed.

Lemma sapp_assoc (s t u : string) : (s +:+ t) +:+ u = s +:+ t +:+ u.
Proof. induction s as [|a s IH]; [done|]. by rewrite !sapp_cons, IH. Qed.

Lemma rstrip_app_space (s : string) : Py.rstrip (s +:+ " ") = Py.rstrip s.
Proof.
  induction s as [|a s IH]; [done|].
  rewrite sapp_cons. simpl. by rewrite IH.
Qed.

Lemma strip_app_space (s : string) : Py.strip (s +:+ " ") = Py.strip s.
Proof. unfold Py.strip. by rewrite rstrip_app_space. Qed.

Lemma spaced_join (lines : list string) :
  lines ≠ [] → spaced lines = Py.join " " lines +:+ " ".
Proof.
  induction lines as [|l [|l' rest] IH]; intros Hne; [done|..].
  - simpl. by rewrite sapp_nil_r.
  - change (spaced (l :: l' :: rest)) with (l +:+ " " +:+ spaced (l' :: rest)).
    rewrite IH by done.
    change (Py.join " " (l :: l' :: rest))
      with (l +:+ " " +:+ Py.join " " (l' :: rest)).
    by rewrite !sapp_assoc.
Qed.

(** Stripping the accumulated text gives the stripped join of the lines. *)
Lemma strip_spaced (lines : list string) :
  Py.strip (spaced lines) = Py.strip (Py.join " " lines).
Proof.
  destruct lines as [|l rest]; [done|].
  rewrite spaced_join by done. apply strip_app_space.
Qed.

Lemma spaced_app (l1 l2 : list string) :
  spaced (l1 ++ l2) = spaced l1 +:+ spaced l2.
Proof.
  induction l1 as [|l l1 IH]; [done|].
  simpl. by rewrite IH, !sapp_assoc.
Qed.

End Strings.

(** ** The monad *)

Section MonadLaws.

Context {A B : Type}.

Lemma bind_inv (m : M A) (k : A → M B) w r w' :
  bind m k w = (r, w') →
  (∃ a w1, m w = (Ok a, w1) ∧ k a w1 = (r, w'))
  ∨ (∃ e, m w = (Raise e, w') ∧ r = Raise e).
Proof.
  unfold bind. destruct (m w) as [[a|e] w1]; intros H.
  - left. by exists a, w1.
  - right. exists e. by inversion H.
Qed.

Lemma bind_ok_inv (m : M A) (k : A → M B) w b w' :
  bind m k w = (Ok b, w') →
  ∃ a w1, m w = (Ok a, w1) ∧ k a w1 = (Ok b, w').
Proof.
  intros [H|(e & _ & ?)]%bind_inv; [done|discriminate].
Qed.

Lemma try_inv (m : M A) (h : exn → M A) w r w' :
  try_except m h w = (r, w') →
  (∃ a, m w = (Ok a, w') ∧ r = Ok a)
  ∨ (∃ e w1, m w = (Raise e, w1) ∧ h e w1 = (r, w')).
Proof.
  unfold try_except. destruct (m w) as [[a|e] w1]; intros H.
  - left. exists a. by inversion H.
  - right. by exists e, w1.
Qed.

End MonadLaws.

Section PureLaws.

Context {A B : Type}.

Lemma pure_ret (a : A) : pure_m (ret a).
Proof. done. Qed.

Lemma pure_raise (e : exn) : pure_m (@raise A e).
Proof. done. Qed.

Lemma pure_call f : pure_m (call f).
Proof. done. Qed.

Lemma pure_call_value (f : World → exn + A) : pure_m (call_value f).
Proof. done. Qed.

Lemma pure_exists p : pure_m (os_path_exists p).
Proof. done. Qed.

Lemma pure_read p : pure_m (read_file p).
Proof. intros w. unfold read_file. by destruct (fs w !! p) as [[]|]. Qed.

Lemma pure_bind (m : M A) (k : A → M B) :
  pure_m m → (∀ a, pure_m (k a)) → pure_m (bind m k).
Proof.
  intros Hm Hk w. unfold bind. specialize (Hm w).
  destruct (m w) as [[a|e] w1]; simpl in *; subst; [apply Hk|done].
Qed.

Lemma pure_try (m : M A) (h : exn → M A) :
  pure_m m → (∀ e, pure_m (h e)) → pure_m (try_except m h).
Proof.
  intros Hm Hh w. unfold try_except. specialize (Hm w).
  destruct (m w) as [[a|e] w1]; simpl in *; subst; [done|apply Hh].
Qed.

Lemma pure_run (m : M A) w r w' : pure_m m → m w = (r, w') → w' = w.
Proof. intros Hm Hr. specialize (Hm w). by rewrite Hr in Hm. Qed.

End PureLaws.

Create HintDb pure.
#[local] Hint Resolve pure_ret pure_raise pure_call pure_call_value
  pure_exists pure_read : pure.

(** ** The slide renderer *)

Section Renderer.

Variable L : Libs.

Lemma pure_measure_line ft x y line : pure_m (measure_line L ft x y line).
Proof.
  apply pure_try; [auto with pure|].
  intros e. destruct (is_AttributeError e); auto with pure.
Qed.

Lemma pure_draw_lines ft fc fsz ls mg lines st :
  pure_m (draw_lines L ft fc fsz ls mg lines st).
Proof.
  revert st. induction lines as [|line rest IH]; intros [[im y] tc]; simpl.
  - apply pure_ret.
  - apply pure_bind; [apply pure_measure_line|intros _].
    apply pure_bind; [apply pure_call|intros _]. apply IH.
Qed.

Lemma pure_draw_cells ft fc fsz ls mg wrap row st :
  pure_m (draw_cells L ft fc fsz ls mg wrap row st).
Proof.
  revert st. induction row as [|c rest IH]; intros st; simpl.
  - apply pure_ret.
  - destruct (Py.is_empty _); [apply IH|].
    destruct (wrap <=? 0); [apply pure_raise|].
    apply pure_bind; [apply pure_draw_lines|].
    intros [[im y] tc]. apply IH.
Qed.

(** The inner loop appends every line to the image and to the text. *)
Lemma draw_lines_ok ft fc fsz ls mg lines im y tc w im' y' tc' w' :
  draw_lines L ft fc fsz ls mg lines (im, y, tc) w = (Ok (im', y', tc'), w') →
  tc' = tc +:+ spaced lines
  ∧ dr_line <$> im_drawn im' = (dr_line <$> im_drawn im) ++ lines
  ∧ y' = y + Z.of_nat (List.length lines) * (fsz + ls).
Proof.
  revert im y tc w. induction lines as [|line rest IH]; intros im y tc w Hrun.
  - inversion Hrun; subst. simpl.
    rewrite sapp_nil_r, List.app_nil_r. split_and!; [done..|lia].
  - simpl in Hrun.
    apply bind_ok_inv in Hrun as (_ & w1 & _ & Hrun).
    apply bind_ok_inv in Hrun as (_ & w2 & _ & Hrun).
    apply IH in Hrun as (-> & -> & ->). split_and!.
    + simpl. by rewrite !sapp_assoc.
    + simpl. rewrite fmap_app. simpl. by rewrite <- List.app_assoc.
    + simpl List.length. lia.
Qed.

Lemma slide_lines_cons c row wrap :
  slide_lines L (c :: row) wrap =
    if Py.is_empty (normalize (py_str c)) then slide_lines L row wrap
    else Py.split_on "010"%char (textwrap_fill L (normalize (py_str c)) wrap)
           ++ slide_lines L row wrap.
Proof.
  unfold slide_lines. simpl.
  by destruct (Py.is_empty (normalize (py_str c))).
Qed.

(** The outer loop draws exactly the lines of the slide. *)
Lemma draw_cells_ok ft fc fsz ls mg wrap row im y tc w im' y' tc' w' :
  draw_cells L ft fc fsz ls mg wrap row (im, y, tc) w = (Ok (im', y', tc'), w') →
  tc' = tc +:+ spaced (slide_lines L row wrap)
  ∧ dr_line <$> im_drawn im' = (dr_line <$> im_drawn im) ++ slide_lines L row wrap.
Proof.
  revert im y tc w. induction row as [|c rest IH]; intros im y tc w Hrun.
  - inversion Hrun; subst. unfold slide_lines. simpl.
    by rewrite sapp_nil_r, List.app_nil_r.
  - simpl in Hrun. rewrite slide_lines_cons.
    fold (normalize (py_str c)) in Hrun.
    destruct (Py.is_empty (normalize (py_str c))); [by apply IH in Hrun|].
    destruct (wrap <=? 0); [discriminate|].
    apply bind_ok_inv in Hrun as ([[im1 y1] tc1] & w1 & Hlines & Hrun).
    apply draw_lines_ok in Hlines as (-> & Him & _).
    apply IH in Hrun as (-> & ->). split.
    + by rewrite spaced_app, sapp_assoc.
    + by rewrite Him, <- List.app_assoc.
Qed.

End Renderer.

(** ** File-system primitives *)

Section Primitives.

Lemma log_run ev w : log ev w = (Ok (), add_event ev w).
Proof. done. Qed.

Lemma bind_exists {A} p (k : bool → M A) w :
  bind (os_path_exists p) k w = k (bool_decide (is_Some (fs w !! p))) w.
Proof. done. Qed.

Lemma bind_log {A} ev (k : () → M A) w :
  bind (log ev) k w = k () (add_event ev w).
Proof. done. Qed.

Lemma bind_call {A} f (k : () → M A) w :
  bind (call f) k w = match f w with None => k () w | Some e => (Raise e, w) end.
Proof. unfold bind, call. by destruct (f w). Qed.

Lemma os_path_exists_run p w :
  os_path_exists p w = (Ok (bool_decide (is_Some (fs w !! p))), w).
Proof. done. Qed.

(** A library write touches [p] only and records nothing. *)
Lemma lib_write_inv p c o w r w' :
  lib_write p c o w = (r, w') →
  trace w' = trace w
  ∧ ((r = Ok () ∧ fs w' = <[p := File c]> (fs w))
     ∨ ((∃ e, r = Raise e)
        ∧ (fs w' = fs w ∨ fs w' = <[p := File CPartial]> (fs w)))).
Proof.
  unfold lib_write, write_file. intros Hrun.
  destruct (fs w !! p) as [[|c0]|] eqn:Hp.
  - inversion Hrun; subst. split; [done|]. right. eauto.
  - destruct (o w) as [|e []]; inversion Hrun; subst; simpl; eauto 10.
  - destruct (o w) as [|e []]; inversion Hrun; subst; simpl; eauto 10.
Qed.

Lemma lib_write_ok p c o w w' :
  lib_write p c o w = (Ok (), w') →
  trace w' = trace w ∧ fs w' = <[p := File c]> (fs w).
Proof.
  intros (Ht & [[_ Hfs]|[[e ?] _]])%lib_write_inv; [done|discriminate].
Qed.

Lemma read_file_ok p w c w' :
  read_file p w = (Ok c, w') → w' = w ∧ fs w !! p = Some (File c).
Proof.
  unfold read_file. destruct (fs w !! p) as [[|c0]|]; intros H;
    inversion H; by subst.
Qed.

End Primitives.

Section RendererSpec.

Variable L : Libs.

(** What a successful render leaves behind. *)
Lemma create_image_for_mcq_ok row path width height bg fc fsz fpath ls mg wrap
    w t w' :
  create_image_for_mcq L row path width height bg fc fsz fpath ls mg wrap w
    = (Ok t, w') →
  ∃ im, fs w' = <[path := File (CImage im)]> (fs w)
        ∧ trace w' = trace w ++ [EvRender path]
        ∧ dr_line <$> im_drawn im = slide_lines L row wrap
        ∧ t = Py.strip (spaced (slide_lines L row wrap)).
Proof.
  intros Hrun. unfold create_image_for_mcq in Hrun.
  apply try_inv in Hrun as [(a & Hbody & [= <-])|(e & w1 & _ & Hh)];
    [|by destruct (is_FileNotFoundError e)].
  apply bind_ok_inv in Hbody as (? & w1 & Hnew & Hbody).
  apply pure_run in Hnew; [subst w1|apply pure_call].
  apply bind_ok_inv in Hbody as (fe & w1 & Hex & Hbody).
  rewrite os_path_exists_run in Hex. inversion Hex; subst; clear Hex.
  destruct (negb _); [discriminate|].
  apply bind_ok_inv in Hbody as (? & w2 & Hft & Hbody).
  apply pure_run in Hft; [subst w2|apply pure_call].
  apply bind_ok_inv in Hbody as ([[im y] tc] & w2 & Hdraw & Hbody).
  pose proof (pure_run _ _ _ _ (pure_draw_cells L _ _ _ _ _ _ _ _) Hdraw) as Hw.
  subst w2.
  apply draw_cells_ok in Hdraw as (-> & Him).
  apply bind_ok_inv in Hbody as (? & w2 & Hlog & Hbody).
  rewrite log_run in Hlog. inversion Hlog; subst; clear Hlog.
  apply bind_ok_inv in Hbody as ([] & w2 & Hsave & Hret).
  apply lib_write_ok in Hsave as (Htr & Hfs).
  inversion Hret; subst; clear Hret.
  exists im. split_and!; [done|done|by rewrite Him|done].
Qed.

End RendererSpec.

(** C7.  Whenever the slide renderer returns, the text it returns is the
    slide text of the row: the cells that are not empty after whitespace
    normalisation, each wrapped on its own, all the resulting lines joined
    by single spaces and the result stripped.  These lines are exactly the
    lines drawn on the image that was saved. *)
Theorem slide_renderer_returns_slide_text
    (L : Libs) (row : list cell) (path : string) (width height : Z)
    (bg fc : rgb) (fsz : Z) (fpath : string) (ls mg wrap : Z)
    (w : World) (t : string) (w' : World) :
  create_image_for_mcq L row path width height bg fc fsz fpath ls mg wrap w
    = (Ok t, w') →
  t = slide_text L row wrap
  ∧ ∃ im, fs w' !! path = Some (File (CImage im))
          ∧ dr_line <$> im_drawn im = slide_lines L row wrap
          ∧ t = Py.strip (Py.join " " (dr_line <$> im_drawn im)).
Proof.
  intros (im & Hfs & _ & Him & ->)%create_image_for_mcq_ok.
  unfold slide_text. rewrite strip_spaced. split; [done|].
  exists im. rewrite Hfs, lookup_insert_eq, Him. done.
Qed.

Lemma slide_renderer_returns_slide_text_witness :
  let row := [CStr "  Q1:   1+1? "; CStr ""; CNaN; CStr "B:2"] in
  let run := create_image_for_mcq (Demo.libs []) row "slide.png" 1920 1080
               DEFAULT_BACKGROUND_COLOR DEFAULT_FONT_COLOR 70 "font.ttf"
               10 80 45 Demo.world in
  run.1 = Ok "Q1: 1+1? nan B:2"
  ∧ "Q1: 1+1? nan B:2" = slide_text (Demo.libs []) row 45
  ∧ ∃ im, fs run.2 !! "slide.png" = Some (File (CImage im))
          ∧ dr_line <$> im_drawn im = slide_lines (Demo.libs []) row 45
          ∧ "Q1: 1+1? nan B:2" = Py.strip (Py.join " " (dr_line <$> im_drawn im)).
Proof.
  intros row run. split; [vm_compute; reflexivity|].
  apply (slide_renderer_returns_slide_text (Demo.libs []) row "slide.png"
           1920 1080 DEFAULT_BACKGROUND_COLOR DEFAULT_FONT_COLOR 70 "font.ttf"
           10 80 45 Demo.world "Q1: 1+1? nan B:2" run.2).
  vm_compute; reflexivity.
Defined.

(** ** The clip composer *)

Section Composer.

Variable L : Libs.

(** On binary64, a strictly positive duration is not [<= 0]. *)
Lemma positive_not_le_zero (x : float) :
  (0 <? x)%float = true → (x <=? 0)%float = false.
Proof.
  rewrite ltb_spec, leb_spec. unfold SFltb, SFleb.
  destruct (Prim2SF x) as [[]|[]| |[] m e]; simpl; try discriminate; auto.
Qed.

Lemma effective_duration_positive (x : float) :
  (0 <? x)%float = true → effective_duration (Some x) = x.
Proof. intros H. unfold effective_duration. by rewrite positive_not_le_zero. Qed.

Lemma effective_duration_nonpositive (x : float) :
  (x <=? 0)%float = true → effective_duration (Some x) = 1%float.
Proof. intros H. unfold effective_duration. by rewrite H. Qed.

Lemma effective_duration_unknown : effective_duration None = 1%float.
Proof. done. Qed.

(** What a successful composition read and wrote. *)
Lemma create_video_clip_ok ip ap vp fps w d w' :
  create_video_clip L ip ap vp fps w = (Ok d, w') →
  ∃ frame sound ad,
    fs w !! ip = Some (File frame)
    ∧ fs w !! ap = Some (File sound)
    ∧ AudioFileClip L w ap = inr ad
    ∧ d = effective_duration ad
    ∧ fs w' = <[vp := File (CClip frame (Some sound) (Some d) (Some fps))]> (fs w)
    ∧ trace w' = trace w ++ [EvEncode ip ap vp].
Proof.
  intros Hrun. unfold create_video_clip in Hrun.
  apply try_inv in Hrun as [(a & Hbody & [= <-])|(e & w1 & _ & Hh)];
    [|discriminate].
  rewrite bind_exists in Hbody. destruct (negb _); [discriminate|].
  rewrite bind_exists in Hbody. destruct (negb _); [discriminate|].
  apply bind_ok_inv in Hbody as (sound & w1 & Hsound & Hbody).
  apply read_file_ok in Hsound as (-> & Hsound).
  apply bind_ok_inv in Hbody as (ad & w2 & Had & Hbody).
  unfold call_value in Had.
  destruct (AudioFileClip L w ap) as [e|ad'] eqn:Hclip; [discriminate|].
  inversion Had; subst ad' w2; clear Had.
  apply bind_ok_inv in Hbody as (frame & w3 & Hframe & Hbody).
  apply read_file_ok in Hframe as (-> & Hframe).
  rewrite bind_call in Hbody. destruct (ImageClip L w ip); [discriminate|].
  rewrite bind_log in Hbody.
  apply bind_ok_inv in Hbody as ([] & w4 & Hwrite & Hret).
  apply lib_write_ok in Hwrite as (Htr & Hfs).
  inversion Hret; subst; clear Hret.
  exists frame, sound, ad. by split_and!.
Qed.

End Composer.

(** C5.  Whenever the clip composer returns, the value it returns is the
    duration of the clip it wrote, and that duration is the audio's own
    duration if it is known and positive, and 1.0 if it is unknown
    ([None]) or not positive. *)
Theorem clip_duration_follows_audio
    (L : Libs) (image_path audio_path video_path : string) (fps : Z)
    (w : World) (d : float) (w' : World) :
  create_video_clip L image_path audio_path video_path fps w = (Ok d, w') →
  ∃ frame sound audio_duration,
    AudioFileClip L w audio_path = inr audio_duration
    ∧ fs w' !! video_path = Some (File (CClip frame sound (Some d) (Some fps)))
    ∧ match audio_duration with
      | None => d = 1%float
      | Some x => ((0 <? x)%float = true → d = x)
                  ∧ ((x <=? 0)%float = true → d = 1%float)
      end.
Proof.
  intros (frame & sound & ad & _ & _ & Hclip & -> & Hfs & _)%create_video_clip_ok.
  exists frame, (Some sound), ad. split_and!; [done|by rewrite Hfs, lookup_insert_eq|].
  destruct ad as [x|]; [|done]. split.
  - apply effective_duration_positive.
  - apply effective_duration_nonpositive.
Qed.

Lemma clip_duration_follows_audio_witness :
  let run := create_video_clip (Demo.libs []) "slide.png" "speech.mp3"
               "clip.mp4" 24 Demo.world_with_media in
  run.1 = Ok 2.5%float
  ∧ ∃ frame sound audio_duration,
      AudioFileClip (Demo.libs []) Demo.world_with_media "speech.mp3"
        = inr audio_duration
      ∧ fs run.2 !! "clip.mp4"
        = Some (File (CClip frame sound (Some 2.5%float) (Some 24)))
      ∧ match audio_duration with
        | None => 2.5%float = 1%float
        | Some x => ((0 <? x)%float = true → 2.5%float = x)
                    ∧ ((x <=? 0)%float = true → 2.5%float = 1%float)
        end.
Proof.
  intros run. split; [vm_compute; reflexivity|].
  apply (clip_duration_follows_audio (Demo.libs []) "slide.png" "speech.mp3"
           "clip.mp4" 24 Demo.world_with_media 2.5%float run.2).
  vm_compute; reflexivity.
Defined.

(** ** The driving tool: pre-flight *)

Section Preflight.

Variable L : Libs.

Lemma os_makedirs_inv p w r w' :
  os_makedirs L p w = (r, w') →
  trace w' = trace w ++ [EvMakedirs p]
  ∧ (fs w' = fs w ∨ (r = Ok () ∧ fs w !! p = None ∧ fs w' = <[p := Dir]> (fs w))).
Proof.
  unfold os_makedirs. rewrite bind_log. simpl.
  destruct (os_makedirs_error L _ p); [intros [= <- <-]; auto|].
  destruct (fs w !! p) as [[|c]|] eqn:Hp; intros [= <- <-]; simpl; auto.
Qed.

Lemma load_data_inv csv w r w' :
  load_data L csv w = (r, w') →
  w' = add_event (EvReadCsv csv) w
  ∧ match pd_read_csv L (add_event (EvReadCsv csv) w) csv with
    | inr table =>
        r = Ok (if df_empty (dropna_all table) then inl (msg_no_rows csv)
                else inr (dropna_all table))
    | inl e =>
        r = Ok (inl (if is_EmptyDataError e then msg_csv_empty csv
                     else msg_csv_unreadable csv e))
    end.
Proof.
  unfold load_data, try_except. rewrite bind_log.
  unfold bind, call_value.
  destruct (pd_read_csv L _ csv) as [e|table].
  - destruct (is_EmptyDataError e); by intros [= <- <-].
  - destruct (df_empty _); by intros [= <- <-].
Qed.

(** The messages of different conditions differ, whatever the paths. *)
Lemma preflight_messages_distinct rq f g :
  same_condition f g = false → preflight_message rq f ≠ preflight_message rq g.
Proof.
  assert (Hsel : ∀ s t : string,
            (String.get 5 s ≠ String.get 5 t ∨ String.get 7 s ≠ String.get 7 t)
            → s ≠ t) by (intros s t [H|H] ->; by apply H).
  destruct f as [| | |e], g as [| | |e']; try discriminate; intros _;
    unfold preflight_message;
    try destruct (is_EmptyDataError e); try destruct (is_EmptyDataError e');
    try (apply Hsel; vm_compute; (by left) || (by right));
    unfold msg_no_rows, msg_csv_empty; intros H;
    do 2 apply (inj (String.app _)) in H; discriminate.
Qed.

End Preflight.

(** C9.  When neither the input table nor the font exists, the tool
    returns the missing-input message, which is not the missing-font
    message; it does so without touching the world. *)
Theorem missing_input_reported_before_missing_font
    (L : Libs) (rq : Request) (w : World) :
  fs w !! csv_file_path rq = None →
  fs w !! font_path rq = None →
  create_mcq_video L rq w = (Ok (msg_csv_not_found (csv_file_path rq)), w)
  ∧ msg_csv_not_found (csv_file_path rq) ≠ msg_font_not_found (font_path rq).
Proof.
  intros Hcsv _. split.
  - unfold create_mcq_video, try_except, create_mcq_video_body.
    rewrite bind_exists, Hcsv. done.
  - apply (preflight_messages_distinct rq InputMissing FontMissing eq_refl).
Qed.

Lemma missing_input_reported_before_missing_font_witness :
  create_mcq_video (Demo.libs Demo.two_rows) Demo.request Demo.world_empty
    = (Ok "Error: Input CSV file not found at 'quiz.csv'", Demo.world_empty)
  ∧ "Error: Input CSV file not found at 'quiz.csv'"
    ≠ "Error: Font file not found at 'font.ttf'. Please provide a valid path.".
Proof.
  apply (missing_input_reported_before_missing_font
           (Demo.libs Demo.two_rows) Demo.request Demo.world_empty);
    reflexivity.
Defined.



(** ** Effects of a computation, up to a preorder on worlds *)

Section Preserves.

Variable R : relation World.
Context `{!PreOrder R}.

Lemma preserves_pure {A} (m : M A) : pure_m m → preserves R m.
Proof. intros Hm w. by rewrite Hm. Qed.

Lemma preserves_bind {A B} (m : M A) (k : A → M B) :
  preserves R m → (∀ a, preserves R (k a)) → preserves R (bind m k).
Proof.
  intros Hm Hk w. unfold bind. specialize (Hm w).
  destruct (m w) as [[a|e] w1]; simpl in *; [|done].
  by trans w1; [|apply Hk].
Qed.

Lemma preserves_try {A} (m : M A) (h : exn → M A) :
  preserves R m → (∀ e, preserves R (h e)) → preserves R (try_except m h).
Proof.
  intros Hm Hh w. unfold try_except. specialize (Hm w).
  destruct (m w) as [[a|e] w1]; simpl in *; [done|].
  by trans w1; [|apply Hh].
Qed.

Lemma preserves_run {A} (m : M A) w r w' :
  preserves R m → m w = (r, w') → R w w'.
Proof. intros Hm Hr. specialize (Hm w). by rewrite Hr in Hm. Qed.

(** What is left to show for the three effectful primitives. *)
Lemma preserves_log ev :
  (∀ w, R w (add_event ev w)) → preserves R (log ev).
Proof. intros H w. apply H. Qed.

Lemma preserves_lib_write p c o :
  (∀ w c', R w (set_fs (insert p (File c')) w)) → preserves R (lib_write p c o).
Proof.
  intros H w. unfold lib_write, write_file.
  destruct (fs w !! p) as [[|c0]|]; [done|..];
    by destruct (o w) as [|e []]; simpl.
Qed.

End Preserves.

(** The renderer and the cleanup step, for any preorder that the
    recording of their call and their one write respect. *)
Section PreservesCalls.

Variable L : Libs.
Variable R : relation World.
Context `{!PreOrder R}.

Lemma preserves_create_image row path width height bg fc fsz fpath ls mg wrap :
  preserves R (log (EvRender path)) →
  (∀ c o, preserves R (lib_write path c o)) →
  preserves R
    (create_image_for_mcq L row path width height bg fc fsz fpath ls mg wrap).
Proof.
  intros Hlog Hwrite. unfold create_image_for_mcq.
  apply preserves_try; [apply _| |].
  - apply preserves_bind; [apply _|apply preserves_pure; [apply _|apply pure_call]|].
    intros _.
    apply preserves_bind; [apply _|apply preserves_pure; [apply _|apply pure_exists]|].
    intros fe. destruct (negb fe); [apply preserves_pure; [apply _|apply pure_raise]|].
    apply preserves_bind; [apply _|apply preserves_pure; [apply _|apply pure_call]|].
    intros _.
    apply preserves_bind;
      [apply _|apply preserves_pure; [apply _|apply pure_draw_cells]|].
    intros [[im y] tc].
    apply preserves_bind; [apply _|done|intros _].
    apply preserves_bind; [apply _|apply Hwrite|intros _].
    apply preserves_pure; [apply _|apply pure_ret].
  - intros e. apply preserves_pure; [apply _|].
    destruct (is_FileNotFoundError e); apply pure_raise.
Qed.

Lemma preserves_remove_if_exists p :
  preserves R (log (EvRemove p)) →
  (∀ w, R w (set_fs (delete p) w)) →
  preserves R (remove_if_exists L p).
Proof.
  intros Hlog Hdel. unfold remove_if_exists.
  apply preserves_bind; [apply _|apply preserves_pure; [apply _|apply pure_exists]|].
  intros []; [|apply preserves_pure; [apply _|apply pure_ret]].
  unfold os_remove.
  apply preserves_bind; [apply _|done|intros _].
  intros w. destruct (os_remove_error L w p); [done|].
  destruct (fs w !! p) as [[|c]|]; [done| |done]. apply Hdel.
Qed.

End PreservesCalls.

(** ** File names *)

Section FileNames.

Lemma list_ascii_of_string_app (s t : string) :
  list_ascii_of_string (s +:+ t)
  = list_ascii_of_string s ++ list_ascii_of_string t.
Proof. induction s as [|a s IH]; [done|]. rewrite sapp_cons. simpl. by rewrite IH. Qed.

Lemma list_ascii_of_string_inj (s t : string) :
  list_ascii_of_string s = list_ascii_of_string t → s = t.
Proof.
  intros H. rewrite <- (string_of_list_ascii_of_string s),
    <- (string_of_list_ascii_of_string t). by rewrite H.
Qed.

Lemma sapp_inv_tail (s s' t : string) : s +:+ t = s' +:+ t → s = s'.
Proof.
  intros H. apply list_ascii_of_string_inj.
  apply (f_equal list_ascii_of_string) in H.
  rewrite !list_ascii_of_string_app in H. by apply app_inv_tail in H.
Qed.

(** Joining one directory with two relative names keeps them apart. *)
Lemma os_path_join_inj (dir a b : string) :
  Py.startswith "/" a = false → Py.startswith "/" b = false →
  os_path_join dir a = os_path_join dir b → a = b.
Proof.
  unfold os_path_join. intros -> ->.
  destruct (Py.is_empty dir || Py.endswith "/" dir); intros H.
  - by apply (inj (String.app _)) in H.
  - by do 2 apply (inj (String.app _)) in H.
Qed.

Lemma image_file_inj dir n m : image_file dir n = image_file dir m → n = m.
Proof.
  intros H. apply os_path_join_inj in H; [|done..].
  apply (inj (String.app _)) in H. apply sapp_inv_tail in H.
  by apply (inj pretty) in H.
Qed.

Lemma audio_file_inj dir n m : audio_file dir n = audio_file dir m → n = m.
Proof.
  intros H. apply os_path_join_inj in H; [|done..].
  apply (inj (String.app _)) in H. apply sapp_inv_tail in H.
  by apply (inj pretty) in H.
Qed.

Lemma video_file_inj dir n m : video_file dir n = video_file dir m → n = m.
Proof.
  intros H. apply os_path_join_inj in H; [|done..].
  apply (inj (String.app _)) in H. apply sapp_inv_tail in H.
  by apply (inj pretty) in H.
Qed.

Lemma image_audio_ne dir n m : image_file dir n ≠ audio_file dir m.
Proof.
  intros H. apply os_path_join_inj in H; [|done..].
  apply (f_equal (String.get 4)) in H. vm_compute in H. discriminate.
Qed.

Lemma image_video_ne dir n m : image_file dir n ≠ video_file dir m.
Proof.
  intros H. apply os_path_join_inj in H; [|done..].
  apply (f_equal (String.get 4)) in H. vm_compute in H. discriminate.
Qed.

Lemma audio_video_ne dir n m : audio_file dir n ≠ video_file dir m.
Proof.
  intros H. apply os_path_join_inj in H; [|done..].
  apply (f_equal (String.get 4)) in H. vm_compute in H. discriminate.
Qed.

(** A path is an intermediate file of at most one item. *)
Lemma own_path_item dir n m q : own_path dir n q → own_path dir m q → n = m.
Proof.
  intros [-> | [-> | ->]] [H | [H | H]];
    first [ by apply image_file_inj in H
          | by apply audio_file_inj in H
          | by apply video_file_inj in H
          | by apply image_audio_ne in H
          | by symmetry in H; apply image_audio_ne in H
          | by apply image_video_ne in H
          | by symmetry in H; apply image_video_ne in H
          | by apply audio_video_ne in H
          | by symmetry in H; apply audio_video_ne in H ].
Qed.

End FileNames.

(** ** One item of the loop *)

Section Item.

Variable L : Libs.
Variable dir : string.

Global Instance effect_on_preorder P : PreOrder (effect_on dir P).
Proof.
  split.
  - intros w. split; [done|]. exists []. by rewrite List.app_nil_r.
  - intros w1 w2 w3 [Hf1 (evs1 & Ht1 & He1)] [Hf2 (evs2 & Ht2 & He2)]. split.
    + intros q Hq. by rewrite Hf2, Hf1.
    + exists (evs1 ++ evs2). split.
      * by rewrite Ht2, Ht1, <- List.app_assoc.
      * by apply Forall_app.
Qed.

Lemma effect_on_mono (P Q : nat → Prop) w w' :
  (∀ n, P n → Q n) → effect_on dir P w w' → effect_on dir Q w w'.
Proof.
  intros HPQ [Hf (evs & Ht & He)]. split.
  - intros q Hq. apply Hf. intros n Hn. by apply Hq, HPQ.
  - exists evs. split; [done|].
    eapply Forall_impl; [exact He|]. intros ev (n & Hn & Hev). eauto.
Qed.

Lemma effect_log P ev n :
  P n → item_event dir n ev → preserves (effect_on dir P) (log ev).
Proof.
  intros Hn Hev. apply preserves_log. intros w. split; [done|].
  exists [ev]. split; [done|]. constructor; [eauto|constructor].
Qed.

Lemma effect_set_fs P n p f w :
  P n → own_path dir n p → (∀ (m : gmap string node) q, q ≠ p → f m !! q = m !! q) →
  effect_on dir P w (set_fs f w).
Proof.
  intros Hn Hp Hf. split.
  - intros q Hq. simpl. apply Hf. intros ->. by apply (Hq n).
  - exists []. by rewrite List.app_nil_r.
Qed.

Lemma effect_lib_write P n p c o :
  P n → own_path dir n p → preserves (effect_on dir P) (lib_write p c o).
Proof.
  intros Hn Hp. apply preserves_lib_write; [apply _|].
  intros w c'. apply (effect_set_fs P n p); [done..|].
  intros m q Hq. by apply lookup_insert_ne.
Qed.

Lemma effect_remove_if_exists P n p :
  P n → own_path dir n p → preserves (effect_on dir P) (remove_if_exists L p).
Proof.
  intros Hn Hp. apply preserves_remove_if_exists; [apply _| |].
  - by apply (effect_log P _ n).
  - intros w. apply (effect_set_fs P n p); [done..|].
    intros m q Hq. by apply lookup_delete_ne.
Qed.

Lemma effect_create_image P n row width height bg fc fsz fpath ls mg wrap :
  P n →
  preserves (effect_on dir P)
    (create_image_for_mcq L row (image_file dir n) width height bg fc fsz
       fpath ls mg wrap).
Proof.
  intros Hn. apply preserves_create_image; [apply _| |].
  - by apply (effect_log P _ n).
  - intros c o. apply (effect_lib_write P n); [done|by left].
Qed.

Lemma effect_create_audio P n text lang :
  P n →
  preserves (effect_on dir P) (create_audio_for_mcq L text (audio_file dir n) lang).
Proof.
  intros Hn. unfold create_audio_for_mcq.
  apply preserves_try; [apply _| |].
  - apply preserves_bind; [apply _|apply preserves_pure; [apply _|apply pure_call]|].
    intros _.
    apply preserves_bind; [apply _|by apply (effect_log P _ n)|intros _].
    apply (effect_lib_write P n); [done|by right; left].
  - intros e. apply preserves_pure; [apply _|apply pure_raise].
Qed.

Lemma effect_create_video_clip P n fps :
  P n →
  preserves (effect_on dir P)
    (create_video_clip L (image_file dir n) (audio_file dir n)
       (video_file dir n) fps).
Proof.
  intros Hn. unfold create_video_clip.
  apply preserves_try; [apply _| |].
  - apply preserves_bind; [apply _|apply preserves_pure; [apply _|apply pure_exists]|].
    intros ie. destruct (negb ie); [apply preserves_pure; [apply _|apply pure_raise]|].
    apply preserves_bind; [apply _|apply preserves_pure; [apply _|apply pure_exists]|].
    intros ae. destruct (negb ae); [apply preserves_pure; [apply _|apply pure_raise]|].
    apply preserves_bind; [apply _|apply preserves_pure; [apply _|apply pure_read]|].
    intros sound.
    apply preserves_bind;
      [apply _|apply preserves_pure; [apply _|apply pure_call_value]|].
    intros d.
    apply preserves_bind; [apply _|apply preserves_pure; [apply _|apply pure_read]|].
    intros frame.
    apply preserves_bind; [apply _|apply preserves_pure; [apply _|apply pure_call]|].
    intros _.
    apply preserves_bind; [apply _|by apply (effect_log P _ n)|intros _].
    apply preserves_bind;
      [apply _|apply (effect_lib_write P n); [done|by right; right]|intros _].
    apply preserves_pure; [apply _|apply pure_ret].
  - intros e. apply preserves_pure; [apply _|apply pure_raise].
Qed.

(** Whatever happens to a row, only its own three files and its own calls
    are involved. *)
Lemma effect_process_item P rq idx row :
  P (idx + 1)%nat →
  preserves (effect_on dir P) (process_item L rq dir idx row).
Proof.
  intros Hn. unfold process_item.
  apply preserves_try; [apply _| |].
  - apply preserves_bind; [apply _|by apply effect_create_image|].
    intros t. destruct (Py.is_empty t); [apply preserves_pure; [apply _|apply pure_ret]|].
    apply preserves_bind; [apply _|by apply effect_create_audio|intros _].
    apply preserves_bind; [apply _|by apply effect_create_video_clip|intros d].
    apply preserves_pure; [apply _|apply pure_ret].
  - intros e.
    apply preserves_bind;
      [apply _|apply (effect_remove_if_exists P (idx + 1)); [done|by left]|intros _].
    apply preserves_bind;
      [apply _|apply (effect_remove_if_exists P (idx + 1)); [done|by right; left]|intros _].
    apply preserves_bind;
      [apply _|apply (effect_remove_if_exists P (idx + 1)); [done|by right; right]|intros _].
    apply preserves_pure; [apply _|apply pure_ret].
Qed.

End Item.

Section ItemOutcome.

Variable L : Libs.
Variable dir : string.

Lemma create_audio_for_mcq_ok text ap lang w w' :
  create_audio_for_mcq L text ap lang w = (Ok (), w') →
  fs w' = <[ap := File (CAudio text lang)]> (fs w)
  ∧ trace w' = trace w ++ [EvNarrate text lang ap].
Proof.
  intros Hrun. unfold create_audio_for_mcq in Hrun.
  apply try_inv in Hrun as [([] & Hbody & _)|(e & w1 & _ & Hh)]; [|discriminate].
  rewrite bind_call in Hbody. destruct (gTTS_init L w text lang); [discriminate|].
  rewrite bind_log in Hbody.
  by apply lib_write_ok in Hbody as (Htr & Hfs).
Qed.

(** The cleanup handler never produces a clip. *)
Lemma cleanup_not_clipped idx w v d w' :
  (remove_if_exists L (image_file dir (idx + 1)) ;;
   remove_if_exists L (audio_file dir (idx + 1)) ;;
   remove_if_exists L (video_file dir (idx + 1)) ;;
   ret (None : option (string * float))) w ≠ (Ok (Some (v, d)), w').
Proof.
  intros H.
  apply bind_ok_inv in H as (? & ? & _ & H).
  apply bind_ok_inv in H as (? & ? & _ & H).
  apply bind_ok_inv in H as (? & ? & _ & H). discriminate.
Qed.

(** A row that reached [individual_video_paths.append]: its three files
    are there, the narration speaks the slide text of the row, and the
    clip shows the slide with that narration. *)
Lemma process_item_clipped rq idx row w v d w' :
  process_item L rq dir idx row w = (Ok (Some (v, d)), w') →
  let n := (idx + 1)%nat in
  let text := slide_text L row DEFAULT_TEXT_WRAP_WIDTH in
  v = video_file dir n
  ∧ Py.is_empty text = false
  ∧ ∃ im,
      dr_line <$> im_drawn im = slide_lines L row DEFAULT_TEXT_WRAP_WIDTH
      ∧ fs w' =
          <[video_file dir n :=
              File (CClip (CImage im) (Some (CAudio text (language rq)))
                      (Some d) (Some DEFAULT_FPS))]>
            (<[audio_file dir n := File (CAudio text (language rq))]>
               (<[image_file dir n := File (CImage im)]> (fs w)))
      ∧ trace w' =
          trace w ++ [EvRender (image_file dir n);
                      EvNarrate text (language rq) (audio_file dir n);
                      EvEncode (image_file dir n) (audio_file dir n)
                        (video_file dir n)].
Proof.
  intros Hrun n text. unfold process_item in Hrun. fold n in Hrun.
  apply try_inv in Hrun as [(a & Hbody & [= <-])|(e & w1 & _ & Hh)].
  2:{ by apply cleanup_not_clipped in Hh. }
  apply bind_ok_inv in Hbody as (t & w1 & Himg & Hbody).
  apply create_image_for_mcq_ok in Himg as (im & Hfs1 & Htr1 & Him & Ht).
  rewrite strip_spaced in Ht. fold (slide_text L row DEFAULT_TEXT_WRAP_WIDTH) in Ht.
  fold text in Ht. subst t.
  destruct (Py.is_empty text) eqn:Hemp; [discriminate|].
  apply bind_ok_inv in Hbody as ([] & w2 & Haud & Hbody).
  apply create_audio_for_mcq_ok in Haud as (Hfs2 & Htr2).
  apply bind_ok_inv in Hbody as (d' & w3 & Hclip & Hret).
  inversion Hret; subst v d' w3; clear Hret.
  apply create_video_clip_ok in Hclip
    as (frame & sound & ad & Hframe & Hsound & _ & _ & Hfs3 & Htr3).
  rewrite Hfs2, Hfs1 in Hframe, Hsound.
  rewrite lookup_insert_ne in Hframe by (symmetry; apply image_audio_ne).
  rewrite lookup_insert_eq in Hframe, Hsound.
  inversion Hframe; inversion Hsound; subst frame sound.
  split_and!; [done..|]. exists im. split_and!; [done| |].
  - by rewrite Hfs3, Hfs2, Hfs1.
  - by rewrite Htr3, Htr2, Htr1, <- !List.app_assoc.
Qed.

End ItemOutcome.

(** ** The row loop *)

Section Loop.

Variable L : Libs.
Variable rq : Request.
Variable dir : string.

(** The accumulated paths are the clip paths of the clipped items. *)
Lemma process_items_paths rows idx paths total w paths' total' w' :
  process_items L rq dir idx rows paths total w = (Ok (paths', total'), w') →
  paths' = paths ++ (video_file dir <$> clipped_items L rq dir idx rows w).
Proof.
  revert idx paths total w.
  induction rows as [|row rest IH]; intros idx paths total w Hrun; simpl in *.
  - inversion Hrun. by rewrite List.app_nil_r.
  - apply bind_ok_inv in Hrun as (r & w1 & Hitem & Hrun). rewrite Hitem.
    destruct r as [[v d]|].
    + apply IH in Hrun as ->.
      apply process_item_clipped in Hitem as (-> & _). simpl.
      by rewrite <- List.app_assoc.
    + by apply IH in Hrun.
Qed.

(** Clipped items are met in increasing order, within the loop's range. *)
Lemma clipped_items_range rows idx w :
  Forall (λ n, (idx < n ≤ idx + List.length rows)%nat)
    (clipped_items L rq dir idx rows w).
Proof.
  revert idx w. induction rows as [|row rest IH]; intros idx w; simpl; [done|].
  destruct (process_item L rq dir idx row w) as [[[[v d]|]|e] w1]; [| |done].
  - constructor; [lia|].
    eapply Forall_impl; [apply IH|]. simpl. intros; lia.
  - eapply Forall_impl; [apply IH|]. simpl. intros; lia.
Qed.

Lemma clipped_items_sorted rows idx w :
  StronglySorted lt (clipped_items L rq dir idx rows w).
Proof.
  revert idx w. induction rows as [|row rest IH]; intros idx w; simpl;
    [constructor|].
  destruct (process_item L rq dir idx row w) as [[[[v d]|]|e] w1];
    [|apply IH|constructor].
  constructor; [apply IH|].
  eapply Forall_impl; [apply clipped_items_range|]. simpl. intros; lia.
Qed.

(** The loop works on the items of its range only. *)
Lemma effect_process_items rows idx paths total :
  preserves (effect_on dir (λ n, (idx < n ≤ idx + List.length rows)%nat))
    (process_items L rq dir idx rows paths total).
Proof.
  revert idx paths total.
  induction rows as [|row rest IH]; intros idx paths total; simpl.
  - apply preserves_pure; [apply _|apply pure_ret].
  - apply preserves_bind; [apply _|apply effect_process_item; lia|].
    assert (Hsub : ∀ paths1 total1,
              preserves (effect_on dir (λ n, (idx < n ≤ idx + S (List.length rest))%nat))
                (process_items L rq dir (S idx) rest paths1 total1)).
    { intros paths1 total1 w. eapply effect_on_mono; [|apply IH].
      simpl. intros; lia. }
    intros [[v d]|]; apply Hsub.
Qed.

(** Calls of items: none goes to the concatenator, and the removals are
    removals of own files. *)
Lemma item_events_calls (P : nat → Prop) evs :
  Forall (λ ev, ∃ n, P n ∧ item_event dir n ev) evs →
  concat_calls evs = []
  ∧ ∀ p, p ∈ removed_paths evs → ∃ n, P n ∧ own_path dir n p.
Proof.
  induction 1 as [|ev evs (n & Hn & Hev) _ [IHc IHr]]; [split; [done|]|].
  { intros p Hp. by apply elem_of_nil in Hp. }
  unfold concat_calls, removed_paths in *.
  destruct ev; simpl in *; try done; try (by split).
  split; [done|]. intros q [->|Hq]%elem_of_cons; eauto.
Qed.

End Loop.

Section LoopOutcome.

Variable L : Libs.
Variable rq : Request.
Variable dir : string.

(** Later items leave the files of item [n] alone. *)
Lemma later_items_keep rows idx paths total w r w' n q :
  process_items L rq dir idx rows paths total w = (r, w') →
  (n ≤ idx)%nat → own_path dir n q → fs w' !! q = fs w !! q.
Proof.
  intros Hrun Hn Hq.
  apply (preserves_run _ _ _ _ _ (effect_process_items L rq dir rows idx paths total))
    in Hrun as [Hframe _].
  apply Hframe. intros m Hm Hq'.
  pose proof (own_path_item dir n m q Hq Hq'). lia.
Qed.

(** When the loop is over, every clipped item is complete and was made
    from the row at its own position. *)
Lemma process_items_done rows idx paths total w paths' total' w' n :
  process_items L rq dir idx rows paths total w = (Ok (paths', total'), w') →
  n ∈ clipped_items L rq dir idx rows w →
  ∃ row, rows !! (n - idx - 1)%nat = Some row ∧ item_done L rq dir n row w'.
Proof.
  revert idx paths total w.
  induction rows as [|row rest IH]; intros idx paths total w Hrun Hn; simpl in *.
  { by apply elem_of_nil in Hn. }
  apply bind_ok_inv in Hrun as (r & w1 & Hitem & Hrun). rewrite Hitem in Hn.
  assert (Hlater : (n ∈ clipped_items L rq dir (S idx) rest w1) →
           ∃ row0, (row :: rest) !! (n - idx - 1)%nat = Some row0
                   ∧ item_done L rq dir n row0 w').
  { intros Hin.
    pose proof (clipped_items_range L rq dir rest (S idx) w1) as Hrange.
    rewrite Forall_forall in Hrange. specialize (Hrange n Hin).
    replace (n - idx - 1)%nat with (S (n - S idx - 1)) by lia. simpl.
    destruct r as [[v d]|]; by eapply IH. }
  destruct r as [[v d]|]; [|by apply Hlater].
  apply elem_of_cons in Hn as [->|Hn]; [|by apply Hlater].
  exists row. replace (idx + 1 - idx - 1)%nat with 0%nat by lia.
  split; [done|].
  apply process_item_clipped in Hitem as (_ & _ & im & Him & Hfs & _).
  exists im, d. split; [done|].
  assert (Hkeep : ∀ q, own_path dir (idx + 1) q → fs w' !! q = fs w1 !! q).
  { intros q Hq.
    eapply later_items_keep with (n := (idx + 1)%nat); [exact Hrun|lia|done]. }
  rewrite !Hkeep by (unfold own_path; auto).
  rewrite Hfs. split_and!.
  - rewrite lookup_insert_ne by (symmetry; apply image_video_ne).
    rewrite lookup_insert_ne by (symmetry; apply image_audio_ne).
    by rewrite lookup_insert_eq.
  - rewrite lookup_insert_ne by (symmetry; apply audio_video_ne).
    by rewrite lookup_insert_eq.
  - by rewrite lookup_insert_eq.
Qed.

(** The calls of a completed loop: none into the concatenator, and every
    removal is the removal of an own file of an item that was not
    clipped. *)
Lemma process_items_calls rows idx paths total w paths' total' w' :
  process_items L rq dir idx rows paths total w = (Ok (paths', total'), w') →
  ∃ evs, trace w' = trace w ++ evs
         ∧ concat_calls evs = []
         ∧ ∀ p, p ∈ removed_paths evs →
                ∃ n, (idx < n ≤ idx + List.length rows)%nat
                     ∧ (n ∉ clipped_items L rq dir idx rows w)
                     ∧ own_path dir n p.
Proof.
  revert idx paths total w.
  induction rows as [|row rest IH]; intros idx paths total w Hrun; simpl in *.
  { inversion Hrun; subst. exists []. rewrite List.app_nil_r.
    split_and!; [done..|]. intros p Hp. by apply elem_of_nil in Hp. }
  apply bind_ok_inv in Hrun as (r & w1 & Hitem & Hrun). rewrite Hitem.
  pose proof (preserves_run _ _ _ _ _
                (effect_process_item L dir (eq (idx + 1)%nat) rq idx row eq_refl)
                Hitem) as [_ (evs1 & Ht1 & He1)].
  apply item_events_calls in He1 as [Hc1 Hr1].
  assert (Hrest : ∃ evs2, trace w' = trace w1 ++ evs2
            ∧ concat_calls evs2 = []
            ∧ ∀ p, p ∈ removed_paths evs2 →
                   ∃ n, (S idx < n ≤ S idx + List.length rest)%nat
                        ∧ (n ∉ clipped_items L rq dir (S idx) rest w1)
                        ∧ own_path dir n p).
  { destruct r as [[v d]|]; by eapply IH. }
  destruct Hrest as (evs2 & Ht2 & Hc2 & Hr2).
  pose proof (clipped_items_range L rq dir rest (S idx) w1) as Hrange.
  rewrite Forall_forall in Hrange.
  exists (evs1 ++ evs2). split; [by rewrite Ht2, Ht1, <- List.app_assoc|].
  unfold concat_calls, removed_paths in *. rewrite !omap_app, Hc1, Hc2.
  split; [done|]. intros p [Hp|Hp]%elem_of_app.
  - destruct r as [[v d]|].
    + apply process_item_clipped in Hitem as (_ & _ & im & _ & _ & Ht).
      rewrite Ht1 in Ht. apply app_inv_head in Ht. subst evs1.
      by apply elem_of_nil in Hp.
    + apply Hr1 in Hp as (n & <- & Hown). exists (idx + 1)%nat.
      split_and!; [lia|lia| |done]. intros Hin. apply Hrange in Hin. lia.
  - apply Hr2 in Hp as (n & Hn & Hnin & Hown). exists n.
    split_and!; [lia|lia| |done].
    destruct r as [[v d]|]; [|done].
    intros [->|Hin]%elem_of_cons; [lia|done].
Qed.

End LoopOutcome.

(** ** The concatenator *)

Section Concatenator.

Variable L : Libs.

Global Instance grows_preorder : PreOrder grows.
Proof.
  split.
  - intros w. split; [done|]. by intros q Hq.
  - intros w1 w2 w3 [Ht1 Hk1] [Ht2 Hk2]. split; [by rewrite Ht2|].
    intros q Hq. by apply Hk2, Hk1.
Qed.

Lemma pure_open_clips paths clips : pure_m (open_clips L paths clips).
Proof.
  revert clips. induction paths as [|p rest IH]; intros clips; simpl.
  - apply pure_ret.
  - apply pure_bind; [apply pure_exists|].
    intros pe. destruct (negb pe); [apply pure_raise|].
    apply pure_bind; [apply pure_read|intros c].
    apply pure_bind; [apply pure_call|intros _]. apply IH.
Qed.

Lemma grows_lib_write p c o : preserves grows (lib_write p c o).
Proof.
  apply preserves_lib_write; [apply _|].
  intros w c'. split; [done|]. intros q Hq. simpl.
  destruct (decide (q = p)) as [->|Hne].
  - by rewrite lookup_insert_eq.
  - by rewrite lookup_insert_ne.
Qed.

(** A call into the concatenator is recorded once, and whatever it does,
    it deletes nothing. *)
Lemma concatenate_videos_inv paths final w r w' :
  concatenate_videos L paths final w = (r, w') →
  trace w' = trace w ++ [EvConcat paths final] ∧ keeps_files w w'.
Proof.
  unfold concatenate_videos. rewrite bind_log. intros Hrun.
  assert (Hgrows : grows (add_event (EvConcat paths final) w) w').
  { destruct paths as [|p rest]; [by inversion Hrun|].
    revert Hrun. apply preserves_run.
    apply preserves_try; [apply _| |].
    - apply preserves_bind;
        [apply _|apply preserves_pure; [apply _|apply pure_open_clips]|].
      intros clips.
      apply preserves_bind;
        [apply _|apply preserves_pure; [apply _|apply pure_call]|intros _].
      apply grows_lib_write.
    - intros e. apply preserves_pure; [apply _|apply pure_raise]. }
  destruct Hgrows as [Ht Hk]. by split.
Qed.


End Concatenator.

(** ** The driving tool *)

Section Tool.

Variable L : Libs.
Variable rq : Request.

(** Past the pre-flight sections, the tool is the loop and the
    concatenation inside the outer handler. *)
Lemma create_mcq_video_from_loop w rows w0 :
  loop_entry L rq w rows w0 →
  create_mcq_video L rq w
  = try_except (process_and_concatenate L rq rows) (λ e, ret (msg_unexpected e)) w0
  ∧ trace w0 = trace w ++ [EvMakedirs (output_dir_of L rq);
                           EvReadCsv (csv_file_path rq)].
Proof.
  intros (Hcsv & Hfont & w1 & Hmk & Hload). split.
  - unfold create_mcq_video, try_except, create_mcq_video_body.
    rewrite bind_exists, bool_decide_true by done. simpl.
    rewrite bind_exists, bool_decide_true by done. simpl.
    unfold bind at 1. rewrite Hmk. unfold bind at 1. by rewrite Hload.
  - apply os_makedirs_inv in Hmk as (Ht1 & _).
    apply load_data_inv in Hload as (-> & _). simpl.
    by rewrite Ht1, <- List.app_assoc.
Qed.

(** Sections 4 to 6 of the tool once the loop is over. *)
Lemma process_and_concatenate_after_loop rows w0 paths total w1 :
  process_items L rq (output_dir_of L rq) 0 rows [] 0%float w0
    = (Ok (paths, total), w1) →
  process_and_concatenate L rq rows w0 =
    match paths with
    | [] => (Ok msg_no_clips, w1)
    | _ :: _ =>
        match concatenate_videos L paths (final_video_full_path L rq) w1 with
        | (Ok _, w2) => (Ok (final_video_full_path L rq), w2)
        | (Raise e, w2) => (Ok (msg_concat_failed e), w2)
        end
    end.
Proof.
  intros Hloop. unfold process_and_concatenate, bind at 1. rewrite Hloop.
  destruct paths as [|p rest]; [done|].
  unfold try_except, bind.
  by destruct (concatenate_videos L _ _ w1) as [[[]|e] w2].
Qed.

End Tool.

(** C2.  Suppose the tool reaches the row loop and the loop runs to its
    end with [paths] accumulated.  Then [paths] are the clip paths of the
    rows that were clipped, in row order.  If [paths] is empty, the tool
    returns the aggregate error and the run contains no call into the
    concatenator.  Otherwise the run contains exactly one such call, with
    exactly [paths] and the final path; the tool returns the final path
    if that call succeeds, and the wrapped error if it raises. *)
Theorem concatenator_called_once_over_clipped_rows
    (L : Libs) (rq : Request) (w : World) (rows : list (list cell))
    (w0 : World) (paths : list string) (total : float) (w1 : World) :
  loop_entry L rq w rows w0 →
  process_items L rq (output_dir_of L rq) 0 rows [] 0%float w0
    = (Ok (paths, total), w1) →
  paths = video_file (output_dir_of L rq)
            <$> clipped_items L rq (output_dir_of L rq) 0 rows w0
  ∧ ∃ s w',
      create_mcq_video L rq w = (Ok s, w')
      ∧ match paths with
        | [] =>
            s = msg_no_clips
            ∧ concat_calls (trace w') = concat_calls (trace w)
        | _ :: _ =>
            concat_calls (trace w')
            = concat_calls (trace w) ++ [(paths, final_video_full_path L rq)]
            ∧ ((s = final_video_full_path L rq
                ∧ concatenate_videos L paths (final_video_full_path L rq) w1
                  = (Ok (), w'))
               ∨ (∃ e, s = msg_concat_failed e
                       ∧ concatenate_videos L paths (final_video_full_path L rq) w1
                         = (Raise e, w')))
        end.
Proof.
  intros Hentry Hloop.
  apply create_mcq_video_from_loop in Hentry as [-> Ht0].
  pose proof (process_items_paths _ _ _ _ _ _ _ _ _ _ _ Hloop) as Hpaths.
  split; [done|].
  pose proof (process_items_calls _ _ _ _ _ _ _ _ _ _ _ Hloop)
    as (evs & Ht1 & Hc1 & _).
  assert (Hcalls : concat_calls (trace w1) = concat_calls (trace w)).
  { unfold concat_calls in *.
    rewrite Ht1, Ht0, !omap_app, Hc1. simpl. by rewrite !List.app_nil_r. }
  unfold try_except.
  rewrite (process_and_concatenate_after_loop _ _ _ _ _ _ _ Hloop).
  clear Hpaths. destruct paths as [|p rest]; [by eexists _, _|].
  destruct (concatenate_videos L (p :: rest) (final_video_full_path L rq) w1)
    as [[[]|e] w2] eqn:Hcat;
    pose proof (concatenate_videos_inv _ _ _ _ _ _ Hcat) as [Ht2 _];
    eexists _, _; (split; [done|]); split.
  - unfold concat_calls in *. rewrite Ht2, omap_app, Hcalls. done.
  - by left.
  - unfold concat_calls in *. rewrite Ht2, omap_app, Hcalls. done.
  - right. by exists e.
Qed.

Lemma concatenator_called_once_over_clipped_rows_witness :
  let L := Demo.libs Demo.two_rows in
  let paths := ["/work/quiz_output/mcq_video_1.mp4";
                "/work/quiz_output/mcq_video_2.mp4"] in
  ∃ w0 w1,
    paths = video_file (output_dir_of L Demo.request)
              <$> clipped_items L Demo.request (output_dir_of L Demo.request)
                    0 Demo.two_rows w0
    ∧ ∃ s w',
        create_mcq_video L Demo.request Demo.world = (Ok s, w')
        ∧ concat_calls (trace w')
          = concat_calls (trace Demo.world)
            ++ [(paths, final_video_full_path L Demo.request)]
        ∧ ((s = final_video_full_path L Demo.request
            ∧ concatenate_videos L paths (final_video_full_path L Demo.request) w1
              = (Ok (), w'))
           ∨ (∃ e, s = msg_concat_failed e
                   ∧ concatenate_videos L paths
                       (final_video_full_path L Demo.request) w1
                     = (Raise e, w'))).
Proof.
  intros L paths. eexists _, _.
  eapply (concatenator_called_once_over_clipped_rows L Demo.request Demo.world
            Demo.two_rows _ paths _ _).
  - split; [by eexists|]. split; [by eexists|].
    eexists. split; vm_compute; reflexivity.
  - vm_compute; reflexivity.
Defined.

(** C6.  When the row loop runs to its end, the accumulated clip paths
    are, position by position, the clip paths of the clipped items; the
    clipped items are listed in strictly increasing item number, that is
    in the order of their rows; the item at each position was made from
    the row with its number (its narration speaks the slide text of that
    row and its clip shows that row's slide with that narration); and
    a call into the concatenator made after the loop receives exactly this
    list. *)
Theorem row_order_is_preserved
    (L : Libs) (rq : Request) (rows : list (list cell)) (w0 : World)
    (paths : list string) (total : float) (w1 : World) :
  let dir := output_dir_of L rq in
  process_items L rq dir 0 rows [] 0%float w0 = (Ok (paths, total), w1) →
  ∃ items,
    items = clipped_items L rq dir 0 rows w0
    ∧ paths = video_file dir <$> items
    ∧ StronglySorted lt items
    ∧ (∀ k n, items !! k = Some n →
         paths !! k = Some (video_file dir n)
         ∧ ∃ row, rows !! (n - 1)%nat = Some row ∧ item_done L rq dir n row w1)
    ∧ ∀ r w2 ps f,
        process_and_concatenate L rq rows w0 = (r, w2) →
        (ps, f) ∈ concat_calls (trace w2) →
        (ps, f) ∈ concat_calls (trace w0) ∨ ps = video_file dir <$> items.
Proof.
  intros dir Hloop. exists (clipped_items L rq dir 0 rows w0).
  pose proof (process_items_paths _ _ _ _ _ _ _ _ _ _ _ Hloop) as Hpaths.
  simpl in Hpaths. split_and!; [done|done|apply clipped_items_sorted| |].
  - intros k n Hk. split.
    + by rewrite Hpaths, list_lookup_fmap, Hk.
    + apply list_elem_of_lookup_2 in Hk.
      destruct (process_items_done _ _ _ _ _ _ _ _ _ _ _ _ Hloop Hk)
        as (row & Hrow & Hdone).
      exists row. split; [|done]. by replace (n - 1)%nat with (n - 0 - 1)%nat by lia.
  - intros r w2 ps f Hrun Hin.
    rewrite (process_and_concatenate_after_loop _ _ _ _ _ _ _ Hloop) in Hrun.
    pose proof (process_items_calls _ _ _ _ _ _ _ _ _ _ _ Hloop)
      as (evs & Ht1 & Hc1 & _).
    assert (Hcalls : concat_calls (trace w1) = concat_calls (trace w0)).
    { unfold concat_calls in *. by rewrite Ht1, omap_app, Hc1, List.app_nil_r. }
    destruct paths as [|p rest].
    { inversion Hrun; subst. left. by rewrite <- Hcalls. }
    destruct (concatenate_videos L (p :: rest) (final_video_full_path L rq) w1)
      as [[[]|e] w3] eqn:Hcat;
      pose proof (concatenate_videos_inv _ _ _ _ _ _ Hcat) as [Ht2 _];
      inversion Hrun; subst; clear Hrun;
      unfold concat_calls in Hin; rewrite Ht2, omap_app in Hin;
      apply elem_of_app in Hin as [Hin|Hin];
      first [ left; by rewrite <- Hcalls
            | right; apply list_elem_of_singleton in Hin;
              inversion Hin; subst; exact Hpaths ].
Qed.

Lemma row_order_is_preserved_witness :
  let L := Demo.libs Demo.blank_then_row in
  let dir := output_dir_of L Demo.request in
  let run := process_items L Demo.request dir 0 Demo.blank_then_row []
               0%float Demo.world in
  ∃ items,
    items = clipped_items L Demo.request dir 0 Demo.blank_then_row Demo.world
    ∧ ["/work/quiz_output/mcq_video_2.mp4"] = video_file dir <$> items
    ∧ StronglySorted lt items
    ∧ (∀ k n, items !! k = Some n →
         ["/work/quiz_output/mcq_video_2.mp4"] !! k = Some (video_file dir n)
         ∧ ∃ row, Demo.blank_then_row !! (n - 1)%nat = Some row
                  ∧ item_done L Demo.request dir n row run.2)
    ∧ ∀ r w2 ps f,
        process_and_concatenate L Demo.request Demo.blank_then_row Demo.world
          = (r, w2) →
        (ps, f) ∈ concat_calls (trace w2) →
        (ps, f) ∈ concat_calls (trace Demo.world)
        ∨ ps = video_file dir <$> items.
Proof.
  intros L dir run.
  apply (row_order_is_preserved L Demo.request Demo.blank_then_row Demo.world
           ["/work/quiz_output/mcq_video_2.mp4"] 2.5%float run.2).
  vm_compute; reflexivity.
Defined.

(** C10.  Suppose the tool reaches the row loop, the loop ends with at
    least one clip, and the concatenation then raises.  The tool returns
    the wrapped concatenation error; no file that existed when the loop
    ended is gone; in particular the image, the narration and the clip of
    every clipped item are still there; and every removal of the whole
    run was the removal of an own file of an item that was not clipped. *)
Theorem concatenation_failure_deletes_nothing
    (L : Libs) (rq : Request) (w : World) (rows : list (list cell))
    (w0 : World) (paths : list string) (total : float) (w1 : World)
    (e : exn) (w2 : World) :
  let dir := output_dir_of L rq in
  loop_entry L rq w rows w0 →
  process_items L rq dir 0 rows [] 0%float w0 = (Ok (paths, total), w1) →
  paths ≠ [] →
  concatenate_videos L paths (final_video_full_path L rq) w1 = (Raise e, w2) →
  create_mcq_video L rq w = (Ok (msg_concat_failed e), w2)
  ∧ keeps_files w1 w2
  ∧ (∀ n, n ∈ clipped_items L rq dir 0 rows w0 →
       is_Some (fs w2 !! image_file dir n)
       ∧ is_Some (fs w2 !! audio_file dir n)
       ∧ is_Some (fs w2 !! video_file dir n))
  ∧ ∃ evs, trace w2 = trace w ++ evs
           ∧ ∀ p, p ∈ removed_paths evs →
                  ∃ n, (n ∉ clipped_items L rq dir 0 rows w0) ∧ own_path dir n p.
Proof.
  intros dir Hentry Hloop Hne Hcat.
  apply create_mcq_video_from_loop in Hentry as [-> Ht0].
  pose proof (concatenate_videos_inv _ _ _ _ _ _ Hcat) as [Ht2 Hkeep].
  split_and!.
  - unfold try_except.
    rewrite (process_and_concatenate_after_loop _ _ _ _ _ _ _ Hloop), Hcat.
    by destruct paths.
  - done.
  - intros n Hn.
    destruct (process_items_done _ _ _ _ _ _ _ _ _ _ _ _ Hloop Hn)
      as (row & _ & im & d & _ & Himg & Haud & Hvid).
    split_and!; apply Hkeep; by eexists.
  - pose proof (process_items_calls _ _ _ _ _ _ _ _ _ _ _ Hloop)
      as (evs & Ht1 & _ & Hrem).
    eexists. split.
    + rewrite Ht2, Ht1, Ht0, <- !List.app_assoc. done.
    + intros p Hp. unfold removed_paths in Hp.
      rewrite !omap_app in Hp. simpl in Hp. rewrite List.app_nil_r in Hp.
      apply Hrem in Hp as (n & _ & Hnin & Hown). eauto.
Qed.

Lemma concatenation_failure_deletes_nothing_witness :
  let L := Demo.libs_no_join Demo.blank_then_row in
  let dir := output_dir_of L Demo.request in
  let e := Exn RuntimeError
    "Error concatenating videos to /work/quiz_output/quiz.mp4: codec error" in
  ∃ w0 w1 w2,
    create_mcq_video L Demo.request Demo.world = (Ok (msg_concat_failed e), w2)
    ∧ keeps_files w1 w2
    ∧ (∀ n, n ∈ clipped_items L Demo.request dir 0 Demo.blank_then_row w0 →
         is_Some (fs w2 !! image_file dir n)
         ∧ is_Some (fs w2 !! audio_file dir n)
         ∧ is_Some (fs w2 !! video_file dir n))
    ∧ ∃ evs, trace w2 = trace Demo.world ++ evs
             ∧ ∀ p, p ∈ removed_paths evs →
                    ∃ n, (n ∉ clipped_items L Demo.request dir 0
                                Demo.blank_then_row w0)
                         ∧ own_path dir n p.
Proof.
  intros L dir e. eexists _, _, _.
  eapply (concatenation_failure_deletes_nothing L Demo.request Demo.world
            Demo.blank_then_row _ ["/work/quiz_output/mcq_video_2.mp4"]
            _ _ e _).
  - split; [by eexists|]. split; [by eexists|].
    eexists. split; vm_compute; reflexivity.
  - vm_compute; reflexivity.
  - discriminate.
  - vm_compute; reflexivity.
Defined.

(** ** Rows without text *)

Section BlankRows.

Variable L : Libs.
Variable dir : string.

Global Instance quiet_preorder n : PreOrder (quiet dir n).
Proof.
  split.
  - intros w. split; [done|]. exists []. by rewrite List.app_nil_r.
  - intros w1 w2 w3 [Hf1 (evs1 & Ht1 & He1)] [Hf2 (evs2 & Ht2 & He2)]. split.
    + intros q Hq Hnone. by apply Hf2, Hf1.
    + exists (evs1 ++ evs2). split.
      * by rewrite Ht2, Ht1, <- List.app_assoc.
      * by apply Forall_app.
Qed.

Lemma quiet_log n ev :
  ev = EvRender (image_file dir n) ∨ (∃ p, ev = EvRemove p) →
  preserves (quiet dir n) (log ev).
Proof.
  intros Hev. apply preserves_log. intros w. split; [done|].
  exists [ev]. split; [done|]. constructor; [done|constructor].
Qed.

Lemma quiet_create_image n row width height bg fc fsz fpath ls mg wrap :
  preserves (quiet dir n)
    (create_image_for_mcq L row (image_file dir n) width height bg fc fsz
       fpath ls mg wrap).
Proof.
  apply preserves_create_image; [apply _| |].
  - apply quiet_log. by left.
  - intros c o. apply preserves_lib_write; [apply _|].
    intros w c'. split.
    + intros q Hq Hnone. simpl. by rewrite lookup_insert_ne.
    + exists []. by rewrite List.app_nil_r.
Qed.

Lemma quiet_remove_if_exists n p : preserves (quiet dir n) (remove_if_exists L p).
Proof.
  apply preserves_remove_if_exists; [apply _| |].
  - apply quiet_log. right. by exists p.
  - intros w. split.
    + intros q Hq Hnone. simpl. apply lookup_delete_None. by right.
    + exists []. by rewrite List.app_nil_r.
Qed.

Lemma slide_lines_blank row wrap :
  all_blank row = true → slide_lines L row wrap = [].
Proof.
  induction row as [|c rest IH]; [done|]. simpl.
  intros [Hc Hrest]%andb_prop. rewrite slide_lines_cons, Hc. by apply IH.
Qed.

(** The renderer on a row without text: if it returns, it returns the
    empty text and has saved a slide with nothing drawn on it. *)
Lemma create_image_blank row path width height bg fc fsz fpath ls mg wrap
    w t w' :
  all_blank row = true →
  create_image_for_mcq L row path width height bg fc fsz fpath ls mg wrap w
    = (Ok t, w') →
  t = "" ∧ ∃ im, im_drawn im = [] ∧ fs w' !! path = Some (File (CImage im)).
Proof.
  intros Hblank (im & Hfs & _ & Him & ->)%create_image_for_mcq_ok.
  rewrite slide_lines_blank in * by done. split; [done|].
  exists im. split; [by apply fmap_nil_inv in Him|].
  by rewrite Hfs, lookup_insert_eq.
Qed.

End BlankRows.

(** C4 (as amended).  For a row whose cells are all empty after whitespace
    normalisation the slide renderer is still called, and when it returns
    it has written the image of the row, a slide with no text, and
    returned the empty text.  The row never yields a clip; its step asks
    for no narration and no encoding and creates no file other than that
    image; and when the step ends without raising, the loop goes on with
    the next row with its accumulators unchanged. *)
Theorem blank_row_yields_no_audio_no_clip
    (L : Libs) (rq : Request) (dir : string) (idx : nat) (row : list cell)
    (rest : list (list cell)) (paths : list string) (total : float)
    (w : World) (r : result (option (string * float))) (w' : World) :
  let n := (idx + 1)%nat in
  all_blank row = true →
  process_item L rq dir idx row w = (r, w') →
  (∀ v d, r ≠ Ok (Some (v, d)))
  ∧ quiet dir n w w'
  ∧ (r = Ok None →
     process_items L rq dir idx (row :: rest) paths total w
     = process_items L rq dir (S idx) rest paths total w')
  ∧ ∀ t w1,
      create_image_for_mcq L row (image_file dir n) (img_width rq)
        (img_height rq) (bg_color_rgb rq) (font_color_rgb rq) (font_size rq)
        (font_path rq) DEFAULT_LINE_SPACING DEFAULT_MARGIN
        DEFAULT_TEXT_WRAP_WIDTH w = (Ok t, w1) →
      t = "" ∧ r = Ok None ∧ w' = w1
      ∧ ∃ im, im_drawn im = [] ∧ fs w' !! image_file dir n = Some (File (CImage im)).
Proof.
  intros n Hblank Hrun.
  assert (Hloop : r = Ok None →
            process_items L rq dir idx (row :: rest) paths total w
            = process_items L rq dir (S idx) rest paths total w').
  { intros ->. simpl. unfold bind at 1. by rewrite Hrun. }
  unfold process_item in Hrun. fold n in Hrun.
  destruct (create_image_for_mcq L row (image_file dir n) (img_width rq)
              (img_height rq) (bg_color_rgb rq) (font_color_rgb rq)
              (font_size rq) (font_path rq) DEFAULT_LINE_SPACING
              DEFAULT_MARGIN DEFAULT_TEXT_WRAP_WIDTH w) as [[t|e] w1] eqn:Himg.
  - pose proof (preserves_run _ _ _ _ _ (quiet_create_image L dir n _ _ _ _ _ _ _ _ _ _) Himg)
      as Hquiet.
    destruct (create_image_blank L _ _ _ _ _ _ _ _ _ _ _ _ _ _ Hblank Himg)
      as (-> & im & Hdrawn & Hfs).
    unfold try_except, bind in Hrun. rewrite Himg in Hrun. simpl in Hrun.
    inversion Hrun; subst r w'; clear Hrun.
    split_and!; [done|done|done|].
    intros t w2 [= <- <-]. split_and!; [done..|]. by exists im.
  - unfold try_except, bind at 1 in Hrun. rewrite Himg in Hrun.
    pose proof (preserves_run _ _ _ _ _ (quiet_create_image L dir n _ _ _ _ _ _ _ _ _ _) Himg)
      as Hquiet1.
    assert (Hquiet2 : quiet dir n w1 w').
    { revert Hrun. apply preserves_run.
      apply preserves_bind; [apply _|apply quiet_remove_if_exists|intros _].
      apply preserves_bind; [apply _|apply quiet_remove_if_exists|intros _].
      apply preserves_bind; [apply _|apply quiet_remove_if_exists|intros _].
      apply preserves_pure; [apply _|apply pure_ret]. }
    split_and!; [|by trans w1|done|done].
    intros v d ->. by apply cleanup_not_clipped in Hrun.
Qed.

Lemma blank_row_yields_no_audio_no_clip_witness :
  let L := Demo.libs Demo.blank_then_row in
  let row := [CStr ""; CStr "  "] in
  let run := process_item L Demo.request "/work/quiz_output" 0 row Demo.world in
  run.1 = Ok None
  ∧ (∀ v d, run.1 ≠ Ok (Some (v, d)))
  ∧ quiet "/work/quiz_output" 1 Demo.world run.2
  ∧ (run.1 = Ok None →
     process_items L Demo.request "/work/quiz_output" 0 [row; [CStr "Q2"]] []
       0%float Demo.world
     = process_items L Demo.request "/work/quiz_output" 1 [[CStr "Q2"]] []
         0%float run.2)
  ∧ ∀ t w1,
      create_image_for_mcq L row (image_file "/work/quiz_output" 1) 1920 1080
        DEFAULT_BACKGROUND_COLOR DEFAULT_FONT_COLOR 70 "font.ttf"
        DEFAULT_LINE_SPACING DEFAULT_MARGIN DEFAULT_TEXT_WRAP_WIDTH
        Demo.world = (Ok t, w1) →
      t = "" ∧ run.1 = Ok None ∧ run.2 = w1
      ∧ ∃ im, im_drawn im = []
              ∧ fs run.2 !! image_file "/work/quiz_output" 1
                = Some (File (CImage im)).
Proof.
  intros L row run. split; [vm_compute; reflexivity|].
  apply (blank_row_yields_no_audio_no_clip L Demo.request "/work/quiz_output"
           0 row [[CStr "Q2"]] [] 0%float Demo.world run.1 run.2).
  - reflexivity.
  - apply surjective_pairing.
Defined.

(** The claim as first stated says that no image file is made for a row
    without text.  In the run below the first row has only blank cells,
    its image is not on disk before, and it is on disk afterwards. *)
Lemma blank_row_image_is_created :
  let L := Demo.libs Demo.blank_then_row in
  let run := create_mcq_video L Demo.request Demo.world in
  all_blank [CStr ""; CStr "  "] = true
  ∧ Demo.blank_then_row !! 0%nat = Some [CStr ""; CStr "  "]
  ∧ fs Demo.world !! "/work/quiz_output/mcq_img_1.png" = None
  ∧ run.1 = Ok "/work/quiz_output/quiz.mp4"
  ∧ fs run.2 !! "/work/quiz_output/mcq_img_1.png"
    = Some (File (CImage (Image 1920 1080 (0, 127, 215) [])))
  ∧ fs run.2 !! "/work/quiz_output/mcq_audio_1.mp3" = None
  ∧ fs run.2 !! "/work/quiz_output/mcq_video_1.mp4" = None.
Proof. vm_compute. by split_and!. Qed.

(** ** Rows that fail *)

Section FailedRows.

Variable L : Libs.
Variable rq : Request.
Variable dir : string.

(** After a cleanup step that did not raise, the path is gone and nothing
    has appeared. *)
Lemma remove_if_exists_ok p w w' :
  remove_if_exists L p w = (Ok (), w') →
  fs w' !! p = None ∧ ∀ q, fs w !! q = None → fs w' !! q = None.
Proof.
  unfold remove_if_exists. rewrite bind_exists.
  destruct (bool_decide (is_Some (fs w !! p))) eqn:Hdec.
  - apply bool_decide_eq_true in Hdec as [nd Hp].
    unfold os_remove. rewrite bind_log. simpl.
    destruct (os_remove_error L _ p); [discriminate|].
    rewrite Hp. destruct nd as [|c]; [discriminate|]. intros [= <-]. simpl.
    split; [apply lookup_delete_eq|].
    intros q Hq. apply lookup_delete_None. by right.
  - apply bool_decide_eq_false in Hdec. intros [= <-].
    split; [by apply eq_None_not_Some|done].
Qed.

(** X21.  A row that ends in [continue] was either skipped for lack of
    text, or it failed and its three files are not on disk any more;
    either way the loop goes on with the next row and the same
    accumulators. *)
Lemma failed_row_is_cleaned_up_and_skipped idx row rest paths total w w' :
  let n := (idx + 1)%nat in
  process_item L rq dir idx row w = (Ok None, w') →
  ((∃ t, Py.is_empty t = true
         ∧ create_image_for_mcq L row (image_file dir n) (img_width rq)
             (img_height rq) (bg_color_rgb rq) (font_color_rgb rq)
             (font_size rq) (font_path rq) DEFAULT_LINE_SPACING DEFAULT_MARGIN
             DEFAULT_TEXT_WRAP_WIDTH w = (Ok t, w'))
   ∨ (fs w' !! image_file dir n = None
      ∧ fs w' !! audio_file dir n = None
      ∧ fs w' !! video_file dir n = None))
  ∧ process_items L rq dir idx (row :: rest) paths total w
    = process_items L rq dir (S idx) rest paths total w'.
Proof.
  intros n Hrun. split; [|simpl; unfold bind at 1; by rewrite Hrun].
  unfold process_item in Hrun. fold n in Hrun.
  apply try_inv in Hrun as [(a & Hbody & [= <-])|(e & w1 & _ & Hh)].
  - left. apply bind_ok_inv in Hbody as (t & w1 & Himg & Hbody).
    destruct (Py.is_empty t) eqn:Hemp.
    + inversion Hbody; subst. by exists t.
    + apply bind_ok_inv in Hbody as (? & ? & _ & Hbody).
      apply bind_ok_inv in Hbody as (? & ? & _ & Hbody). discriminate.
  - right.
    apply bind_ok_inv in Hh as ([] & w2 & [Hi1 Hk1]%remove_if_exists_ok & Hh).
    apply bind_ok_inv in Hh as ([] & w3 & [Ha2 Hk2]%remove_if_exists_ok & Hh).
    apply bind_ok_inv in Hh as ([] & w4 & [Hv3 Hk3]%remove_if_exists_ok & Hh).
    inversion Hh; subst. auto.
Qed.

End FailedRows.

(** C3 (the code departs from the claim).  The claim says that a failing
    row never aborts the run.  Here the output directory already holds a
    directory named like the image of the first row: saving the slide
    fails, the handler of the row tries to remove that path, [os.remove]
    raises on a directory, and the exception leaves the loop: the tool
    returns the unexpected-error message, the second row is never
    rendered, although without that directory the same table gives the
    final video. *)
Theorem cleanup_failure_aborts_the_run :
  let L := Demo.libs Demo.two_rows in
  let run := create_mcq_video L Demo.request Demo.world_blocked in
  run.1 = Ok "Error: An unexpected error occurred during video generation: [Errno 21] Is a directory: '/work/quiz_output/mcq_img_1.png'"
  ∧ trace run.2 = [EvMakedirs "/work/quiz_output"; EvReadCsv "quiz.csv";
                   EvRender "/work/quiz_output/mcq_img_1.png";
                   EvRemove "/work/quiz_output/mcq_img_1.png"]
  ∧ fs run.2 !! "/work/quiz_output/mcq_img_2.png" = None
  ∧ (create_mcq_video L Demo.request Demo.world).1
    = Ok "/work/quiz_output/quiz.mp4".
Proof. vm_compute. by split_and!. Qed.

(** ** The boundary of the tool *)

Section Boundary.

Variable L : Libs.
Variable rq : Request.





End Boundary.




(** A run in which every narration fails: each row is caught by its
    handler, the slide and the partial narration are removed again, the
    loop reaches the last row, and the tool reports that no clip was
    made, without a call into the concatenator. *)
Example offline_run_cleans_up_every_row :
  let L := Demo.libs_offline Demo.two_rows in
  let run := create_mcq_video L Demo.request Demo.world in
  run.1 = Ok msg_no_clips
  ∧ removed_paths (trace run.2)
    = ["/work/quiz_output/mcq_img_1.png"; "/work/quiz_output/mcq_audio_1.mp3";
       "/work/quiz_output/mcq_img_2.png"; "/work/quiz_output/mcq_audio_2.mp3"]
  ∧ concat_calls (trace run.2) = []
  ∧ fs run.2 !! "/work/quiz_output/mcq_img_2.png" = None
  ∧ fs run.2 !! "/work/quiz_output/mcq_audio_2.mp3" = None.
Proof. vm_compute. repeat split. Qed.

(** * Further properties of the code *)

(** ** What a computation touches *)

Section Touches.

Global Instance touches_preorder S Q : PreOrder (touches S Q).
Proof.
  split.
  - intros w. split; [done|]. exists []. by rewrite List.app_nil_r.
  - intros w1 w2 w3 [Hf1 (evs1 & Ht1 & He1)] [Hf2 (evs2 & Ht2 & He2)]. split.
    + intros q Hq. by rewrite Hf2, Hf1.
    + exists (evs1 ++ evs2). split.
      * by rewrite Ht2, Ht1, <- List.app_assoc.
      * by apply Forall_app.
Qed.

Lemma touches_mono (S S' : string → Prop) (Q Q' : event → Prop) w w' :
  (∀ q, S q → S' q) → (∀ ev, Q ev → Q' ev) →
  touches S Q w w' → touches S' Q' w w'.
Proof.
  intros HS HQ [Hf (evs & Ht & He)]. split.
  - intros q Hq. apply Hf. intros Hs. by apply Hq, HS.
  - exists evs. split; [done|]. eapply Forall_impl; [exact He|done].
Qed.

Lemma preserves_mono {A} (S S' : string → Prop) (Q Q' : event → Prop) (m : M A) :
  (∀ q, S q → S' q) → (∀ ev, Q ev → Q' ev) →
  preserves (touches S Q) m → preserves (touches S' Q') m.
Proof. intros HS HQ Hm w. eapply touches_mono; [exact HS|exact HQ|apply Hm]. Qed.

Lemma touches_log S (Q : event → Prop) ev :
  Q ev → preserves (touches S Q) (log ev).
Proof.
  intros Hev. apply preserves_log. intros w. split; [done|].
  exists [ev]. split; [done|]. constructor; [done|constructor].
Qed.

Lemma touches_set_fs (S : string → Prop) Q p f w :
  S p → (∀ (m : gmap string node) q, q ≠ p → f m !! q = m !! q) →
  touches S Q w (set_fs f w).
Proof.
  intros Hp Hf. split.
  - intros q Hq. simpl. apply Hf. by intros ->.
  - exists []. by rewrite List.app_nil_r.
Qed.

Lemma touches_lib_write (S : string → Prop) Q p c o :
  S p → preserves (touches S Q) (lib_write p c o).
Proof.
  intros Hp. apply preserves_lib_write; [apply _|].
  intros w c'. apply (touches_set_fs S Q p); [done|].
  intros m q Hq. by apply lookup_insert_ne.
Qed.

End Touches.

Section TouchesProgram.

Variable L : Libs.

Lemma touches_create_image (S : string → Prop) (Q : event → Prop)
    row path width height bg fc fsz fpath ls mg wrap :
  S path → Q (EvRender path) →
  preserves (touches S Q)
    (create_image_for_mcq L row path width height bg fc fsz fpath ls mg wrap).
Proof.
  intros Hp Hev. apply preserves_create_image; [apply _| |].
  - by apply touches_log.
  - intros c o. by apply touches_lib_write.
Qed.

Lemma touches_create_audio (S : string → Prop) (Q : event → Prop) text ap lang :
  S ap → Q (EvNarrate text lang ap) →
  preserves (touches S Q) (create_audio_for_mcq L text ap lang).
Proof.
  intros Hp Hev. unfold create_audio_for_mcq.
  apply preserves_try; [apply _| |].
  - apply preserves_bind; [apply _|apply preserves_pure; [apply _|apply pure_call]|].
    intros _.
    apply preserves_bind; [apply _|by apply touches_log|intros _].
    by apply touches_lib_write.
  - intros e. apply preserves_pure; [apply _|apply pure_raise].
Qed.

Lemma touches_create_video_clip (S : string → Prop) (Q : event → Prop) ip ap vp fps :
  S vp → Q (EvEncode ip ap vp) →
  preserves (touches S Q) (create_video_clip L ip ap vp fps).
Proof.
  intros Hp Hev. unfold create_video_clip.
  apply preserves_try; [apply _| |].
  - apply preserves_bind; [apply _|apply preserves_pure; [apply _|apply pure_exists]|].
    intros ie. destruct (negb ie); [apply preserves_pure; [apply _|apply pure_raise]|].
    apply preserves_bind; [apply _|apply preserves_pure; [apply _|apply pure_exists]|].
    intros ae. destruct (negb ae); [apply preserves_pure; [apply _|apply pure_raise]|].
    apply preserves_bind; [apply _|apply preserves_pure; [apply _|apply pure_read]|].
    intros sound.
    apply preserves_bind;
      [apply _|apply preserves_pure; [apply _|apply pure_call_value]|].
    intros d.
    apply preserves_bind; [apply _|apply preserves_pure; [apply _|apply pure_read]|].
    intros frame.
    apply preserves_bind; [apply _|apply preserves_pure; [apply _|apply pure_call]|].
    intros _.
    apply preserves_bind; [apply _|by apply touches_log|intros _].
    apply preserves_bind; [apply _|by apply touches_lib_write|intros _].
    apply preserves_pure; [apply _|apply pure_ret].
  - intros e. apply preserves_pure; [apply _|apply pure_raise].
Qed.

Lemma touches_concatenate_videos (S : string → Prop) (Q : event → Prop) paths final :
  S final → Q (EvConcat paths final) →
  preserves (touches S Q) (concatenate_videos L paths final).
Proof.
  intros Hp Hev. unfold concatenate_videos.
  apply preserves_bind; [apply _|by apply touches_log|intros _].
  destruct paths as [|p rest]; [apply preserves_pure; [apply _|apply pure_raise]|].
  apply preserves_try; [apply _| |].
  - apply preserves_bind;
      [apply _|apply preserves_pure; [apply _|apply pure_open_clips]|].
    intros clips.
    apply preserves_bind; [apply _|apply preserves_pure; [apply _|apply pure_call]|].
    intros _. by apply touches_lib_write.
  - intros e. apply preserves_pure; [apply _|apply pure_raise].
Qed.

Lemma touches_remove_if_exists (S : string → Prop) (Q : event → Prop) p :
  S p → Q (EvRemove p) → preserves (touches S Q) (remove_if_exists L p).
Proof.
  intros Hp Hev. apply preserves_remove_if_exists; [apply _| |].
  - by apply touches_log.
  - intros w. apply (touches_set_fs S Q p); [done|].
    intros m q Hq. by apply lookup_delete_ne.
Qed.

End TouchesProgram.

(** ** Failure modes of the helper functions *)

(** X1.  When the font file does not exist, the slide renderer raises
    [FileNotFoundError] with the font-not-found message, not wrapped in
    [RuntimeError], before anything is drawn or saved: the world is as
    it was. *)
Theorem renderer_stops_at_missing_font
    (L : Libs) (row : list cell) (path : string) (width height : Z)
    (bg fc : rgb) (fsz : Z) (fpath : string) (ls mg wrap : Z) (w : World) :
  Image_new L w width height bg = None →
  fs w !! fpath = None →
  create_image_for_mcq L row path width height bg fc fsz fpath ls mg wrap w
  = (Raise (Exn FileNotFoundError ("Font file not found at: " +:+ fpath)), w).
Proof.
  intros Hnew Hfont. unfold create_image_for_mcq, try_except.
  by rewrite bind_call, Hnew, bind_exists, Hfont.
Qed.

Lemma renderer_stops_at_missing_font_witness :
  create_image_for_mcq (Demo.libs []) [CStr "Q1"] "slide.png" 1920 1080
    DEFAULT_BACKGROUND_COLOR DEFAULT_FONT_COLOR 70 "font.ttf" 10 80 45
    Demo.world_empty
  = (Raise (Exn FileNotFoundError "Font file not found at: font.ttf"),
     Demo.world_empty).
Proof.
  apply (renderer_stops_at_missing_font (Demo.libs []) [CStr "Q1"] "slide.png"
           1920 1080 DEFAULT_BACKGROUND_COLOR DEFAULT_FONT_COLOR 70 "font.ttf"
           10 80 45 Demo.world_empty); reflexivity.
Defined.

(** X2.  Whatever the slide renderer does, it changes no path but the
    image path and makes at most render calls for that path.  When it
    raises, the exception is a [FileNotFoundError] passed on as it was,
    or a [RuntimeError] whose message is "Error creating image", the
    path, and the message of a cause that is not a [FileNotFoundError]. *)
Theorem renderer_effects_and_failures
    (L : Libs) (row : list cell) (path : string) (width height : Z)
    (bg fc : rgb) (fsz : Z) (fpath : string) (ls mg wrap : Z)
    (w : World) (r : result string) (w' : World) :
  create_image_for_mcq L row path width height bg fc fsz fpath ls mg wrap w
    = (r, w') →
  touches (eq path) (eq (EvRender path)) w w'
  ∧ match r with
    | Ok _ => True
    | Raise e =>
        exn_cls e = FileNotFoundError
        ∨ (exn_cls e = RuntimeError
           ∧ ∃ cause, is_FileNotFoundError cause = false
                      ∧ exn_str e = "Error creating image " +:+ path +:+ ": "
                                    +:+ exn_str cause)
    end.
Proof.
  intros Hrun. split.
  - revert Hrun. apply preserves_run. by apply touches_create_image.
  - destruct r as [t|e]; [done|].
    unfold create_image_for_mcq in Hrun.
    apply try_inv in Hrun as [(a & _ & ?)|(cause & w1 & _ & Hh)]; [done|].
    destruct (is_FileNotFoundError cause) eqn:Hc; inversion Hh; subst.
    + left. unfold is_FileNotFoundError in Hc. by destruct (exn_cls e).
    + right. split; [done|]. by exists cause.
Qed.

Lemma renderer_effects_and_failures_witness :
  let run := create_image_for_mcq (Demo.libs []) [CStr "Q1"]
               "/work/quiz_output/mcq_img_1.png" 1920 1080
               DEFAULT_BACKGROUND_COLOR DEFAULT_FONT_COLOR 70 "font.ttf"
               10 80 45 Demo.world_blocked in
  touches (eq "/work/quiz_output/mcq_img_1.png")
    (eq (EvRender "/work/quiz_output/mcq_img_1.png")) Demo.world_blocked run.2
  ∧ match run.1 with
    | Ok _ => True
    | Raise e =>
        exn_cls e = FileNotFoundError
        ∨ (exn_cls e = RuntimeError
           ∧ ∃ cause, is_FileNotFoundError cause = false
                      ∧ exn_str e = "Error creating image "
                                    +:+ "/work/quiz_output/mcq_img_1.png" +:+ ": "
                                    +:+ exn_str cause)
    end.
Proof.
  intros run.
  apply (renderer_effects_and_failures (Demo.libs []) [CStr "Q1"]
           "/work/quiz_output/mcq_img_1.png" 1920 1080
           DEFAULT_BACKGROUND_COLOR DEFAULT_FONT_COLOR 70 "font.ttf"
           10 80 45 Demo.world_blocked run.1 run.2).
  apply surjective_pairing.
Defined.

(** X3.  Whatever the narrator does, it changes no path but the audio
    path and makes at most narration calls for its own text, language and
    path.  When it returns, the audio file holds the narration of that
    text in that language; when it raises, the exception is always a
    [RuntimeError] whose message is "Error creating audio", the path,
    "with gTTS" and the message of the cause. *)
Theorem narrator_effects_and_failures
    (L : Libs) (text audio_path lang : string)
    (w : World) (r : result ()) (w' : World) :
  create_audio_for_mcq L text audio_path lang w = (r, w') →
  touches (eq audio_path) (eq (EvNarrate text lang audio_path)) w w'
  ∧ match r with
    | Ok _ => fs w' !! audio_path = Some (File (CAudio text lang))
    | Raise e =>
        exn_cls e = RuntimeError
        ∧ ∃ cause, exn_str e = "Error creating audio " +:+ audio_path
                               +:+ " with gTTS: " +:+ exn_str cause
    end.
Proof.
  intros Hrun. split.
  - revert Hrun. apply preserves_run. by apply touches_create_audio.
  - destruct r as [[]|e].
    + apply create_audio_for_mcq_ok in Hrun as [-> _]. apply lookup_insert_eq.
    + unfold create_audio_for_mcq in Hrun.
      apply try_inv in Hrun as [(a & _ & ?)|(cause & w1 & _ & Hh)]; [done|].
      inversion Hh; subst. split; [done|]. by exists cause.
Qed.

Lemma narrator_effects_and_failures_witness :
  let run := create_audio_for_mcq (Demo.libs_offline []) "Q1" "speech.mp3" "en"
               Demo.world in
  touches (eq "speech.mp3") (eq (EvNarrate "Q1" "en" "speech.mp3"))
    Demo.world run.2
  ∧ match run.1 with
    | Ok _ => fs run.2 !! "speech.mp3" = Some (File (CAudio "Q1" "en"))
    | Raise e =>
        exn_cls e = RuntimeError
        ∧ ∃ cause, exn_str e = "Error creating audio " +:+ "speech.mp3"
                               +:+ " with gTTS: " +:+ exn_str cause
    end.
Proof.
  intros run.
  apply (narrator_effects_and_failures (Demo.libs_offline []) "Q1" "speech.mp3"
           "en" Demo.world run.1 run.2).
  apply surjective_pairing.
Defined.

(** X4.  When the image file or the audio file is missing, the clip
    composer raises a [RuntimeError] (the [FileNotFoundError] it raised
    itself is wrapped by its own handler) and leaves the world as it was;
    the message names the image when both are missing. *)
Theorem composer_needs_both_inputs
    (L : Libs) (image_path audio_path video_path : string) (fps : Z) (w : World) :
  fs w !! image_path = None ∨ fs w !! audio_path = None →
  create_video_clip L image_path audio_path video_path fps w
  = (Raise (Exn RuntimeError
       ("Error creating video clip " +:+ video_path +:+ ": "
        +:+ match fs w !! image_path with
            | None => "Image file not found: " +:+ image_path
            | Some _ => "Audio file not found: " +:+ audio_path
            end)), w).
Proof.
  intros Hmiss. unfold create_video_clip, try_except. rewrite bind_exists.
  destruct (fs w !! image_path) as [nd|] eqn:Hi; [|done].
  rewrite bool_decide_true by done. simpl. rewrite bind_exists.
  destruct Hmiss as [?|Ha]; [done|]. by rewrite Ha.
Qed.

Lemma composer_needs_both_inputs_witness :
  create_video_clip (Demo.libs []) "slide.png" "speech.mp3" "clip.mp4" 24
    Demo.world
  = (Raise (Exn RuntimeError
       "Error creating video clip clip.mp4: Image file not found: slide.png"),
     Demo.world).
Proof.
  apply (composer_needs_both_inputs (Demo.libs []) "slide.png" "speech.mp3"
           "clip.mp4" 24 Demo.world).
  left. reflexivity.
Defined.



(** ** The concatenator *)

Section ConcatenatorMore.

Variable L : Libs.

(** Opening the clips reads the files in list order and changes nothing. *)
Lemma open_clips_ok paths acc w clips w' :
  open_clips L paths acc w = (Ok clips, w') →
  w' = w
  ∧ ∃ cs, clips = acc ++ cs
          ∧ Forall2 (λ p c, fs w !! p = Some (File c)) paths cs.
Proof.
  revert acc. induction paths as [|p rest IH]; intros acc Hrun; simpl in Hrun.
  - inversion Hrun; subst. split; [done|]. exists [].
    by rewrite List.app_nil_r.
  - rewrite bind_exists in Hrun. destruct (negb _); [discriminate|].
    apply bind_ok_inv in Hrun as (c & w1 & Hread & Hrun).
    apply read_file_ok in Hread as (-> & Hc).
    rewrite bind_call in Hrun. destruct (VideoFileClip L w p); [discriminate|].
    apply IH in Hrun as (-> & cs & -> & Hcs). split; [done|].
    exists (c :: cs). split; [by rewrite <- List.app_assoc|by constructor].
Qed.

(** A list with a missing path cannot be opened. *)
Lemma open_clips_missing paths acc w p :
  p ∈ paths → fs w !! p = None →
  ∃ e, open_clips L paths acc w = (Raise e, w).
Proof.
  intros Hin Hp. revert acc.
  induction paths as [|p0 rest IH]; intros acc; [by apply elem_of_nil in Hin|].
  destruct (open_clips L (p0 :: rest) acc w) as [[clips|e] w1] eqn:Hrun.
  - apply open_clips_ok in Hrun as (_ & cs & _ & Hcs).
    apply list_elem_of_lookup in Hin as (i & Hi).
    destruct (Forall2_lookup_l _ _ _ _ _ Hcs Hi) as (c & _ & Hc). congruence.
  - pose proof (pure_run _ _ _ _ (pure_open_clips L _ _) Hrun) as ->. by exists e.
Qed.

End ConcatenatorMore.





(** X8.  If any path of the list does not exist, the concatenator raises
    a [RuntimeError] and writes nothing: the file system is as it was,
    the final path included. *)
Theorem concatenator_needs_every_clip
    (L : Libs) (paths : list string) (final : string) (w : World) (p : string) :
  p ∈ paths → fs w !! p = None →
  ∃ e, concatenate_videos L paths final w
       = (Raise e, add_event (EvConcat paths final) w)
       ∧ exn_cls e = RuntimeError.
Proof.
  intros Hin Hp. unfold concatenate_videos. rewrite bind_log.
  destruct paths as [|p0 rest]; [by apply elem_of_nil in Hin|].
  destruct (open_clips_missing L (p0 :: rest) []
              (add_event (EvConcat (p0 :: rest) final) w) p Hin Hp) as (e & He).
  unfold try_except, bind at 1. rewrite He. by eexists.
Qed.

Lemma concatenator_needs_every_clip_witness :
  ∃ e, concatenate_videos (Demo.libs []) ["quiz.csv"; "gone.mp4"] "out.mp4"
         Demo.world
       = (Raise e, add_event (EvConcat ["quiz.csv"; "gone.mp4"] "out.mp4")
                     Demo.world)
       ∧ exn_cls e = RuntimeError.
Proof.
  apply (concatenator_needs_every_clip (Demo.libs []) ["quiz.csv"; "gone.mp4"]
           "out.mp4" Demo.world "gone.mp4").
  - apply list_elem_of_In. simpl. auto.
  - reflexivity.
Defined.

(** ** Layout of a slide *)

Section Layout.

Variable L : Libs.
Variables (ft : font) (fc : rgb) (fsz ls mg : Z).

(** Every line drawn so far is at the margin, in the font colour, and the
    [k]-th of them (from 0) is [k] line heights below the margin plus one
    cell gap for each of the [c] cells finished before it. *)
Let laid (im : image) : Prop :=
  ∀ (k : nat) d, im_drawn im !! k = Some d →
    dr_x d = mg ∧ dr_fill d = fc
    ∧ ∃ c : nat, (c ≤ k)%nat
        ∧ dr_y d = mg + Z.of_nat k * (fsz + ls) + Z.of_nat c * (ls * 2).

Lemma split_on_not_nil c s : Py.split_on c s ≠ [].
Proof.
  unfold Py.split_on. generalize "". induction s as [|a s IH]; intros cur; simpl;
    [done|]. destruct (Ascii.eqb a c); [done|apply IH].
Qed.

Lemma draw_lines_layout lines im y tc w im' y' tc' w' (c : nat) :
  laid im → (c ≤ List.length (im_drawn im))%nat →
  y = mg + Z.of_nat (List.length (im_drawn im)) * (fsz + ls) + Z.of_nat c * (ls * 2) →
  draw_lines L ft fc fsz ls mg lines (im, y, tc) w = (Ok (im', y', tc'), w') →
  laid im'
  ∧ List.length (im_drawn im') = (List.length (im_drawn im) + List.length lines)%nat
  ∧ y' = mg + Z.of_nat (List.length (im_drawn im')) * (fsz + ls) + Z.of_nat c * (ls * 2)
  ∧ im_width im' = im_width im ∧ im_height im' = im_height im
  ∧ im_bg im' = im_bg im.
Proof.
  revert im y tc w.
  induction lines as [|line rest IH]; intros im y tc w Hlaid Hc Hy Hrun.
  - inversion Hrun; subst. split_and!; [done|simpl; lia|done..].
  - simpl in Hrun.
    apply bind_ok_inv in Hrun as (? & w1 & _ & Hrun).
    apply bind_ok_inv in Hrun as (? & w2 & _ & Hrun).
    apply IH in Hrun as (Hl & Hlen & Hy' & Hw & Hh & Hb).
    + split_and!; [done| |done..].
      rewrite Hlen. simpl. rewrite length_app. simpl. lia.
    + intros k d Hk. simpl in Hk.
      destruct (decide (k < List.length (im_drawn im))%nat) as [Hlt|Hge].
      * rewrite lookup_app_l in Hk by done. by apply Hlaid.
      * rewrite lookup_app_r in Hk by lia.
        destruct (k - List.length (im_drawn im))%nat as [|j] eqn:Hj; [|done].
        inversion Hk; subst d. simpl. split_and!; [done..|].
        exists c. split; [lia|]. replace k with (List.length (im_drawn im)) by lia.
        done.
    + simpl. rewrite length_app. simpl. lia.
    + simpl. rewrite length_app. simpl. lia.
Qed.

Lemma draw_cells_layout wrap row im y tc w im' y' tc' w' (c : nat) :
  laid im → (c ≤ List.length (im_drawn im))%nat →
  y = mg + Z.of_nat (List.length (im_drawn im)) * (fsz + ls) + Z.of_nat c * (ls * 2) →
  draw_cells L ft fc fsz ls mg wrap row (im, y, tc) w = (Ok (im', y', tc'), w') →
  laid im' ∧ im_width im' = im_width im ∧ im_height im' = im_height im
  ∧ im_bg im' = im_bg im.
Proof.
  revert im y tc w c.
  induction row as [|cl rest IH]; intros im y tc w c Hlaid Hc Hy Hrun.
  - by inversion Hrun; subst.
  - simpl in Hrun. destruct (Py.is_empty _); [by eapply IH|].
    destruct (wrap <=? 0); [discriminate|].
    apply bind_ok_inv in Hrun as ([[im1 y1] tc1] & w1 & Hlines & Hrun).
    pose proof (split_on_not_nil "010"%char
                  (textwrap_fill L (Py.join " " (Py.split (py_str cl))) wrap))
      as Hne.
    eapply draw_lines_layout in Hlines as (Hl & Hlen & Hy1 & Hw & Hh & Hb);
      [|done..].
    apply (IH _ _ _ _ (S c)) in Hrun as (Hl' & Hw' & Hh' & Hb'); [| | |].
    + split_and!; [done|congruence..].
    + done.
    + rewrite Hlen. destruct (Py.split_on _ _); [done|]. simpl. lia.
    + rewrite Hy1. lia.
Qed.

End Layout.

(** The slide the renderer saved, line by line. *)
Lemma rendered_slide_layout
    (L : Libs) (row : list cell) (path : string) (width height : Z)
    (bg fc : rgb) (fsz : Z) (fpath : string) (ls mg wrap : Z)
    (w : World) (t : string) (w' : World) :
  create_image_for_mcq L row path width height bg fc fsz fpath ls mg wrap w
    = (Ok t, w') →
  ∃ im, fs w' !! path = Some (File (CImage im))
        ∧ im_width im = width ∧ im_height im = height ∧ im_bg im = bg
        ∧ ∀ (k : nat) d, im_drawn im !! k = Some d →
            dr_x d = mg ∧ dr_fill d = fc
            ∧ ∃ c : nat, (c ≤ k)%nat
                ∧ dr_y d = mg + Z.of_nat k * (fsz + ls) + Z.of_nat c * (ls * 2).
Proof.
  intros Hrun. unfold create_image_for_mcq in Hrun.
  apply try_inv in Hrun as [(a & Hbody & [= <-])|(e & w1 & _ & Hh)];
    [|by destruct (is_FileNotFoundError e)].
  rewrite bind_call in Hbody. destruct (Image_new L _ _ _ _); [discriminate|].
  rewrite bind_exists in Hbody. destruct (negb _); [discriminate|].
  rewrite bind_call in Hbody. destruct (ImageFont_truetype L _ _ _); [discriminate|].
  apply bind_ok_inv in Hbody as ([[im y] tc] & w2 & Hdraw & Hbody).
  eapply (draw_cells_layout L _ fc fsz ls mg wrap row _ _ _ _ _ _ _ _ 0%nat)
    in Hdraw as (Hlaid & Hw & Hh & Hb); [| |simpl; lia|simpl; lia].
  2:{ intros k d Hk. simpl in Hk. by rewrite lookup_nil in Hk. }
  rewrite bind_log in Hbody.
  apply bind_ok_inv in Hbody as ([] & w3 & Hsave & [= _ <-]).
  apply lib_write_ok in Hsave as (_ & Hfs).
  exists im. rewrite Hfs, lookup_insert_eq. by split_and!.
Qed.



(** ** Whitespace normalisation *)

Section Normalise.

Lemma split_go_words cur s :
  Forall (λ word, word ≠ "") (Py.split_go cur s).
Proof.
  revert cur. induction s as [|a s IH]; intros cur; simpl.
  - destruct cur; [constructor|]. by repeat constructor.
  - destruct (Py.isspace a); [|apply IH].
    destruct cur; simpl; [apply IH|]. constructor; [done|apply IH].
Qed.

Lemma sapp_not_empty (s : string) (a : ascii) : s +:+ String a "" ≠ "".
Proof. by destruct s. Qed.

Lemma split_go_nil cur s :
  Py.split_go cur s = [] ↔
  cur = "" ∧ forallb Py.isspace (list_ascii_of_string s) = true.
Proof.
  revert cur. induction s as [|a s IH]; intros cur; simpl.
  - destruct cur; simpl; split; try done. by intros [? _].
  - destruct (Py.isspace a) eqn:Ha; simpl.
    + destruct cur; simpl; [apply IH|]. split; [done|by intros [? _]].
    + rewrite IH. split; [|by intros [_ ?]].
      intros [Hcur _]. by apply sapp_not_empty in Hcur.
Qed.

Lemma join_words_empty (l : list string) :
  Forall (λ word, word ≠ "") l → Py.join " " l = "" → l = [].
Proof.
  destruct l as [|x [|y l]]; [done|..]; intros Hl; inversion Hl; subst; simpl.
  - done.
  - by destruct x.
Qed.

Lemma normalize_empty (s : string) :
  Py.is_empty (normalize s) = true
  ↔ forallb Py.isspace (list_ascii_of_string s) = true.
Proof.
  unfold normalize, Py.split. split.
  - intros He. destruct (Py.join " " (Py.split_go "" s)) eqn:Hj; [|done].
    apply join_words_empty in Hj; [|apply split_go_words].
    by apply split_go_nil in Hj as [_ ?].
  - intros Hs. assert (Py.split_go "" s = []) as -> by (by apply split_go_nil).
    done.
Qed.

End Normalise.


(** X11.  A row none of whose cells has text gives a slide without text:
    whenever the renderer returns on a row of whitespace-only strings, it
    returns the empty text and has saved an image with nothing drawn. *)
Theorem whitespace_row_renders_empty_slide
    (L : Libs) (row : list cell) (path : string) (width height : Z)
    (bg fc : rgb) (fsz : Z) (fpath : string) (ls mg wrap : Z)
    (w : World) (t : string) (w' : World) :
  Forall (λ c, ∃ s, c = CStr s
                    ∧ forallb Py.isspace (list_ascii_of_string s) = true) row →
  create_image_for_mcq L row path width height bg fc fsz fpath ls mg wrap w
    = (Ok t, w') →
  t = ""
  ∧ fs w' !! path = Some (File (CImage (Image width height bg []))).
Proof.
  intros Hrow Hrun.
  assert (Hblank : all_blank row = true).
  { unfold all_blank. apply forallb_forall. intros c Hc%list_elem_of_In.
    rewrite Forall_forall in Hrow. apply normalize_empty.
    destruct (Hrow c Hc) as (s & -> & Hs). done. }
  pose proof (rendered_slide_layout L _ _ _ _ _ _ _ _ _ _ _ _ _ _ Hrun)
    as (im & Hfs & Hw & Hh & Hb & _).
  destruct (create_image_blank L _ _ _ _ _ _ _ _ _ _ _ _ _ _ Hblank Hrun)
    as (-> & im' & Hdrawn & Hfs').
  split; [done|]. rewrite Hfs in Hfs'. inversion Hfs'; subst im'.
  rewrite Hfs. destruct im as [iw ih ib idr]. simpl in *. by subst.
Qed.

Lemma whitespace_row_renders_empty_slide_witness :
  let run := create_image_for_mcq (Demo.libs []) [CStr ""; CStr "  "]
               "slide.png" 1920 1080 DEFAULT_BACKGROUND_COLOR
               DEFAULT_FONT_COLOR 70 "font.ttf" 10 80 45 Demo.world in
  run.1 = Ok ""
  ∧ "" = ""
  ∧ fs run.2 !! "slide.png"
    = Some (File (CImage (Image 1920 1080 DEFAULT_BACKGROUND_COLOR []))).
Proof.
  intros run. split; [vm_compute; reflexivity|].
  apply (whitespace_row_renders_empty_slide (Demo.libs []) [CStr ""; CStr "  "]
           "slide.png" 1920 1080 DEFAULT_BACKGROUND_COLOR DEFAULT_FONT_COLOR
           70 "font.ttf" 10 80 45 Demo.world "" run.2).
  - repeat constructor; eexists; split; reflexivity.
  - vm_compute; reflexivity.
Defined.

(** ** Names of the intermediate files *)

(** X12.  The three intermediate files of an item have three different
    names, and no file name belongs to two items: rows never overwrite or
    remove each other's files, whatever the output directory is. *)
Theorem intermediate_files_never_collide (dir : string) (n m : nat) :
  NoDup [image_file dir n; audio_file dir n; video_file dir n]
  ∧ ∀ q, own_path dir n q → own_path dir m q → n = m.
Proof.
  split; [|intros q; apply own_path_item].
  repeat constructor; rewrite ?elem_of_cons, ?elem_of_nil.
  - intros [H|[H|[]]]; [by apply image_audio_ne in H|by apply image_video_ne in H].
  - intros [H|[]]. by apply audio_video_ne in H.
  - intros [].
Qed.

(** ** What a run of the tool touches *)

Section ToolTouches.

Variable L : Libs.
Variable rq : Request.

Lemma touches_os_makedirs (S : string → Prop) (Q : event → Prop) p :
  S p → Q (EvMakedirs p) → preserves (touches S Q) (os_makedirs L p).
Proof.
  intros Hp Hev. unfold os_makedirs.
  apply preserves_bind; [apply _|by apply touches_log|intros _].
  intros w. destruct (os_makedirs_error L w p); [done|].
  destruct (fs w !! p) as [[|c]|]; [done|done|]. simpl.
  apply (touches_set_fs S Q p); [done|].
  intros m q Hq. by apply lookup_insert_ne.
Qed.

Lemma touches_load_data (S : string → Prop) (Q : event → Prop) csv :
  Q (EvReadCsv csv) → preserves (touches S Q) (load_data L csv).
Proof.
  intros Hev. unfold load_data.
  apply preserves_try; [apply _| |].
  - apply preserves_bind; [apply _|by apply touches_log|intros _].
    apply preserves_bind;
      [apply _|apply preserves_pure; [apply _|apply pure_call_value]|].
    intros table. apply preserves_pure; [apply _|].
    destruct (df_empty _); apply pure_ret.
  - intros e. apply preserves_pure; [apply _|].
    destruct (is_EmptyDataError e); apply pure_ret.
Qed.

Lemma tool_touches_item idx row :
  preserves (touches (tool_path L rq) (tool_event L rq))
    (process_item L rq (output_dir_of L rq) idx row).
Proof.
  unfold process_item.
  assert (Hown : ∀ q, own_path (output_dir_of L rq) (idx + 1) q → tool_path L rq q).
  { intros q Hq. right; right. by exists (idx + 1)%nat. }
  apply preserves_try; [apply _| |].
  - apply preserves_bind; [apply _| |].
    { apply touches_create_image; [apply Hown; by left|]. by eexists. }
    intros t. destruct (Py.is_empty t) eqn:Ht;
      [apply preserves_pure; [apply _|apply pure_ret]|].
    apply preserves_bind; [apply _| |intros _].
    { apply touches_create_audio; [apply Hown; by right; left|].
      simpl. split_and!; [done..|]. by eexists. }
    apply preserves_bind; [apply _| |intros d].
    { apply touches_create_video_clip; [apply Hown; by right; right|].
      simpl. by eexists. }
    apply preserves_pure; [apply _|apply pure_ret].
  - intros e.
    apply preserves_bind; [apply _| |intros _].
    { apply touches_remove_if_exists; [apply Hown; by left|].
      simpl. eexists. by left. }
    apply preserves_bind; [apply _| |intros _].
    { apply touches_remove_if_exists; [apply Hown; by right; left|].
      simpl. eexists. by right; left. }
    apply preserves_bind; [apply _| |intros _].
    { apply touches_remove_if_exists; [apply Hown; by right; right|].
      simpl. eexists. by right; right. }
    apply preserves_pure; [apply _|apply pure_ret].
Qed.

Lemma tool_touches_items rows idx paths total :
  preserves (touches (tool_path L rq) (tool_event L rq))
    (process_items L rq (output_dir_of L rq) idx rows paths total).
Proof.
  revert idx paths total.
  induction rows as [|row rest IH]; intros idx paths total; simpl.
  - apply preserves_pure; [apply _|apply pure_ret].
  - apply preserves_bind; [apply _|apply tool_touches_item|].
    intros [[v d]|]; apply IH.
Qed.

(** Every run of the tool, to whatever end, stays within its own paths
    and its own calls. *)
Lemma tool_touches :
  preserves (touches (tool_path L rq) (tool_event L rq)) (create_mcq_video L rq).
Proof.
  unfold create_mcq_video.
  apply preserves_try; [apply _| |intros e; apply preserves_pure; [apply _|apply pure_ret]].
  unfold create_mcq_video_body.
  apply preserves_bind; [apply _|apply preserves_pure; [apply _|apply pure_exists]|].
  intros ce. destruct (negb ce); [apply preserves_pure; [apply _|apply pure_ret]|].
  apply preserves_bind; [apply _|apply preserves_pure; [apply _|apply pure_exists]|].
  intros fe. destruct (negb fe); [apply preserves_pure; [apply _|apply pure_ret]|].
  apply preserves_bind; [apply _| |intros _].
  { apply touches_os_makedirs; [by left|done]. }
  apply preserves_bind; [apply _|by apply touches_load_data|].
  intros [message|rows]; [apply preserves_pure; [apply _|apply pure_ret]|].
  unfold process_and_concatenate.
  apply preserves_bind; [apply _|apply tool_touches_items|].
  intros [paths total].
  destruct paths as [|p rest]; [apply preserves_pure; [apply _|apply pure_ret]|].
  apply preserves_try; [apply _| |intros e; apply preserves_pure; [apply _|apply pure_ret]].
  apply preserves_bind; [apply _| |intros _; apply preserves_pure; [apply _|apply pure_ret]].
  apply touches_concatenate_videos; [by right; left|done].
Qed.

End ToolTouches.


Lemma work_paths_under_output_dir (n : nat) (q : string) :
  own_path "/work/quiz_output" n q →
  String.get 0 q = Some "/"%char ∧ String.get 17 q = Some "/"%char.
Proof.
  assert (Hjoin : ∀ name, Py.startswith "/" name = false →
            String.get 0 (os_path_join "/work/quiz_output" name) = Some "/"%char
            ∧ String.get 17 (os_path_join "/work/quiz_output" name) = Some "/"%char).
  { intros name Hname. unfold os_path_join. by rewrite Hname. }
  intros [-> | [-> | ->]]; by apply Hjoin.
Qed.


(** X14.  Whatever the libraries do and however the run ends, every call
    the tool makes is one of its own: the narrator is only called with a
    non-empty text, in the requested language, for an index-named audio
    file; the concatenator is only called with a non-empty list and the
    final path (so its [ValueError] cannot come from the tool); and only
    index-named intermediate files are ever removed. *)
Theorem tool_makes_only_its_own_calls
    (L : Libs) (rq : Request) (w : World) :
  ∃ evs, trace (create_mcq_video L rq w).2 = trace w ++ evs
         ∧ Forall (tool_event L rq) evs.
Proof. by destruct (tool_touches L rq w) as [_ ?]. Qed.

(** ** Runs in which no library fails *)

Section HappyPath.

Variable L : Libs.
Hypothesis HL : Benign L.

Global Instance adds_files_preorder : PreOrder adds_files.
Proof.
  split.
  - intros w q. by left.
  - intros w1 w2 w3 H12 H23 q.
    destruct (H23 q) as [H|H]; [|by right]. rewrite H. apply H12.
Qed.

Lemma adds_files_insert p c w w' :
  fs w' = <[p := File c]> (fs w) → adds_files w w'.
Proof.
  intros Hfs q. rewrite Hfs. destruct (decide (q = p)) as [->|Hne].
  - right. exists c. apply lookup_insert_eq.
  - left. by apply lookup_insert_ne.
Qed.

Lemma adds_files_file w w' q c :
  adds_files w w' → fs w !! q = Some (File c) → ∃ c', fs w' !! q = Some (File c').
Proof. intros H Hq. destruct (H q) as [Hs|Hf]; [|done]. exists c. by rewrite Hs. Qed.

Lemma adds_files_no_dir w w' q :
  adds_files w w' → fs w !! q ≠ Some Dir → fs w' !! q ≠ Some Dir.
Proof.
  intros H Hq. destruct (H q) as [Hs|[c Hf]]; [by rewrite Hs|]. by rewrite Hf.
Qed.

Lemma adds_files_exists w w' q :
  adds_files w w' → is_Some (fs w !! q) → is_Some (fs w' !! q).
Proof.
  intros H Hq. destruct (H q) as [Hs|[c Hf]]; [by rewrite Hs|]. by rewrite Hf.
Qed.

Lemma lib_write_returns p c o w :
  o w = Written → fs w !! p ≠ Some Dir →
  lib_write p c o w = (Ok (), set_fs (insert p (File c)) w).
Proof.
  intros Ho Hp. unfold lib_write, write_file. rewrite Ho.
  by destruct (fs w !! p) as [[|c0]|].
Qed.

Lemma measure_line_returns ft x y line w :
  measure_line L ft x y line w = (Ok (), w).
Proof. unfold measure_line, try_except, call. by rewrite (benign_bbox L HL). Qed.

Lemma draw_lines_returns ft fc fsz ls mg lines st w :
  ∃ st', draw_lines L ft fc fsz ls mg lines st w = (Ok st', w).
Proof.
  revert st. induction lines as [|line rest IH]; intros [[im y] tc]; simpl.
  - by eexists.
  - unfold bind at 1. rewrite measure_line_returns.
    rewrite bind_call, (benign_text L HL). apply IH.
Qed.

Lemma draw_cells_returns ft fc fsz ls mg wrap row st w :
  0 < wrap →
  ∃ st', draw_cells L ft fc fsz ls mg wrap row st w = (Ok st', w).
Proof.
  intros Hwrap. revert st. induction row as [|c rest IH]; intros st; simpl.
  - by eexists.
  - destruct (Py.is_empty _); [apply IH|].
    destruct (Z.leb_spec wrap 0) as [?|_]; [lia|].
    destruct (draw_lines_returns ft fc fsz ls mg
                (Py.split_on "010"%char
                   (textwrap_fill L (Py.join " " (Py.split (py_str c))) wrap))
                st w) as ([[im y] tc] & Hlines).
    unfold bind at 1. rewrite Hlines. apply IH.
Qed.

(** With a font in place, no directory in the way and a positive wrap
    width, the renderer returns. *)
Lemma create_image_returns row path width height bg fc fsz fpath ls mg wrap w :
  is_Some (fs w !! fpath) → fs w !! path ≠ Some Dir → 0 < wrap →
  ∃ t w', create_image_for_mcq L row path width height bg fc fsz fpath ls mg wrap w
          = (Ok t, w').
Proof.
  intros Hfont Hpath Hwrap. unfold create_image_for_mcq, try_except.
  rewrite bind_call, (benign_new L HL), bind_exists.
  rewrite bool_decide_true by done. simpl.
  rewrite bind_call, (benign_font L HL).
  destruct (draw_cells_returns (Font fpath fsz) fc fsz ls mg wrap row
              (Image width height bg [], mg, "") w Hwrap)
    as ([[im y] tc] & Hdraw).
  unfold bind at 1. rewrite Hdraw. rewrite bind_log.
  unfold bind. rewrite lib_write_returns; [by eexists _, _|apply (benign_save L HL)|done].
Qed.

Lemma create_audio_returns text ap lang w :
  fs w !! ap ≠ Some Dir →
  ∃ w', create_audio_for_mcq L text ap lang w = (Ok (), w').
Proof.
  intros Hap. unfold create_audio_for_mcq, try_except.
  rewrite bind_call, (benign_tts L HL), bind_log.
  rewrite lib_write_returns; [by eexists|apply (benign_tts_save L HL)|done].
Qed.

Lemma create_video_clip_returns ip ap vp fps w frame sound :
  fs w !! ip = Some (File frame) → fs w !! ap = Some (File sound) →
  fs w !! vp ≠ Some Dir →
  ∃ d w', create_video_clip L ip ap vp fps w = (Ok d, w').
Proof.
  intros Hip Hap Hvp. unfold create_video_clip, try_except.
  rewrite bind_exists, Hip. simpl. rewrite bind_exists, Hap. simpl.
  unfold bind at 1, read_file. rewrite Hap.
  destruct (benign_audio L HL w ap) as [d Hd].
  unfold bind at 1, call_value. rewrite Hd.
  unfold bind at 1, read_file. rewrite Hip.
  rewrite bind_call, (benign_image L HL), bind_log.
  unfold bind. rewrite lib_write_returns; [by eexists _, _|apply (benign_encode L HL)|done].
Qed.

Lemma open_clips_returns paths acc w :
  Forall (λ p, ∃ c, fs w !! p = Some (File c)) paths →
  ∃ cs, open_clips L paths acc w = (Ok (acc ++ cs), w)
        ∧ List.length cs = List.length paths.
Proof.
  intros Hp. revert acc. induction Hp as [|p rest [c Hc] _ IH]; intros acc; simpl.
  - exists []. by rewrite List.app_nil_r.
  - rewrite bind_exists, Hc. simpl.
    unfold bind at 1, read_file. rewrite Hc.
    rewrite bind_call, (benign_video L HL).
    destruct (IH (acc ++ [c])) as (cs & -> & Hlen).
    exists (c :: cs). rewrite <- List.app_assoc. simpl. by rewrite Hlen.
Qed.

Lemma concatenate_videos_returns paths final w :
  paths ≠ [] →
  Forall (λ p, ∃ c, fs w !! p = Some (File c)) paths →
  fs w !! final ≠ Some Dir →
  ∃ clips w', concatenate_videos L paths final w = (Ok (), w')
              ∧ fs w' !! final = Some (File (CVideo clips))
              ∧ List.length clips = List.length paths.
Proof.
  intros Hne Hp Hfinal. unfold concatenate_videos. rewrite bind_log.
  destruct paths as [|p rest]; [done|].
  destruct (open_clips_returns (p :: rest) []
              (add_event (EvConcat (p :: rest) final) w) Hp) as (cs & Hopen & Hlen).
  unfold try_except, bind at 1. rewrite Hopen. simpl.
  rewrite bind_call, (benign_join L HL).
  rewrite lib_write_returns; [|apply (benign_encode L HL)|done].
  eexists cs, _. split_and!; [done| |done]. simpl. apply lookup_insert_eq.
Qed.

Variable rq : Request.
Variable dir : string.

(** One row in a run without failures: it ends with its clip if it has
    something to narrate and in the first [continue] if not; files are
    only added. *)
Lemma process_item_returns idx row w :
  is_Some (fs w !! font_path rq) →
  (∀ q, own_path dir (idx + 1) q → fs w !! q ≠ Some Dir) →
  ∃ r w', process_item L rq dir idx row w = (Ok r, w')
          ∧ adds_files w w'
          ∧ (∃ c, fs w' !! image_file dir (idx + 1) = Some (File c))
          ∧ if narratable L row
            then ∃ d c, r = Some (video_file dir (idx + 1), d)
                        ∧ fs w' !! video_file dir (idx + 1) = Some (File c)
            else r = None.
Proof.
  intros Hfont Hdirs. set (n := (idx + 1)%nat).
  destruct (create_image_returns row (image_file dir n) (img_width rq)
              (img_height rq) (bg_color_rgb rq) (font_color_rgb rq)
              (font_size rq) (font_path rq) DEFAULT_LINE_SPACING DEFAULT_MARGIN
              DEFAULT_TEXT_WRAP_WIDTH w Hfont)
    as (t & w1 & Himg); [apply Hdirs; by left|done|].
  pose proof (create_image_for_mcq_ok L _ _ _ _ _ _ _ _ _ _ _ _ _ _ Himg)
    as (im & Hfs1 & _ & _ & Ht).
  rewrite strip_spaced in Ht. fold (slide_text L row DEFAULT_TEXT_WRAP_WIDTH) in Ht.
  unfold narratable. rewrite <- Ht.
  unfold process_item, try_except. fold n. unfold bind at 1. rewrite Himg.
  pose proof (adds_files_insert _ _ _ _ Hfs1) as Hadd1.
  assert (Himage : fs w1 !! image_file dir n = Some (File (CImage im)))
    by (by rewrite Hfs1, lookup_insert_eq).
  destruct (Py.is_empty t) eqn:Hempty; simpl.
  { eexists _, _. split_and!; [done|done| |done]. by eexists. }
  destruct (create_audio_returns t (audio_file dir n) (language rq) w1)
    as (w2 & Haud).
  { apply (adds_files_no_dir w); [done|]. apply Hdirs. by right; left. }
  pose proof (create_audio_for_mcq_ok L _ _ _ _ _ Haud) as (Hfs2 & _).
  pose proof (adds_files_insert _ _ _ _ Hfs2) as Hadd2.
  destruct (create_video_clip_returns (image_file dir n) (audio_file dir n)
              (video_file dir n) DEFAULT_FPS w2 (CImage im) (CAudio t (language rq)))
    as (d & w3 & Hclip).
  { rewrite Hfs2, lookup_insert_ne by (symmetry; apply image_audio_ne).
    by rewrite Hfs1, lookup_insert_eq. }
  { by rewrite Hfs2, lookup_insert_eq. }
  { apply (adds_files_no_dir w1); [done|]. apply (adds_files_no_dir w); [done|].
    apply Hdirs. by right; right. }
  pose proof (create_video_clip_ok L _ _ _ _ _ _ _ Hclip)
    as (frame & sound & ad & _ & _ & _ & _ & Hfs3 & _).
  pose proof (adds_files_insert _ _ _ _ Hfs3) as Hadd3.
  unfold bind at 1. rewrite Haud. unfold bind. rewrite Hclip.
  eexists _, _. split_and!; [done| | |].
  - by trans w1; [|trans w2].
  - apply (adds_files_file w1 _ _ (CImage im)); [by trans w2|done].
  - eexists _, _. split; [done|]. by rewrite Hfs3, lookup_insert_eq.
Qed.

(** The loop in a run without failures. *)
Lemma process_items_returns rows idx paths total w :
  is_Some (fs w !! font_path rq) →
  (∀ n q, own_path dir n q → fs w !! q ≠ Some Dir) →
  ∃ new total' w',
    process_items L rq dir idx rows paths total w = (Ok (paths ++ new, total'), w')
    ∧ adds_files w w'
    ∧ List.length new = List.length (List.filter (narratable L) rows)
    ∧ Forall (λ p, ∃ c, fs w' !! p = Some (File c)) new
    ∧ ∀ n, (idx < n ≤ idx + List.length rows)%nat →
           ∃ c, fs w' !! image_file dir n = Some (File c).
Proof.
  revert idx paths total w.
  induction rows as [|row rest IH]; intros idx paths total w Hfont Hdirs; simpl.
  - exists [], total, w. rewrite List.app_nil_r. split_and!; [done..|]. intros; lia.
  - destruct (process_item_returns idx row w Hfont)
      as (r & w1 & Hitem & Hadd & [ci Himage] & Hr).
    { intros q. apply Hdirs. }
    unfold bind at 1. rewrite Hitem.
    assert (Hfont1 : is_Some (fs w1 !! font_path rq))
      by (by apply (adds_files_exists w)).
    assert (Hdirs1 : ∀ n q, own_path dir n q → fs w1 !! q ≠ Some Dir).
    { intros n q Hq. apply (adds_files_no_dir w); [done|]. by apply (Hdirs n). }
    destruct (narratable L row).
    + destruct Hr as (d & c & -> & Hfile).
      destruct (IH (S idx) (paths ++ [video_file dir (idx + 1)])
                  (total + d)%float w1 Hfont1 Hdirs1)
        as (new & total' & w' & Hrun & Hadd' & Hlen & Hfiles & Himgs).
      exists (video_file dir (idx + 1) :: new), total', w'.
      rewrite <- List.app_assoc in Hrun. split_and!.
      * done.
      * by trans w1.
      * simpl. by rewrite Hlen.
      * constructor; [|done]. by eapply adds_files_file.
      * intros n Hn. destruct (decide (n = idx + 1)%nat) as [->|Hne].
        -- by eapply adds_files_file.
        -- apply Himgs. lia.
    + subst r.
      destruct (IH (S idx) paths total w1 Hfont1 Hdirs1)
        as (new & total' & w' & Hrun & Hadd' & Hlen & Hfiles & Himgs).
      exists new, total', w'. split_and!; [done|by trans w1|done|done|].
      intros n Hn. destruct (decide (n = idx + 1)%nat) as [->|Hne].
      * by eapply adds_files_file.
      * apply Himgs. lia.
Qed.

End HappyPath.

(** X15.  A run in which no library call fails.  If the tool gets past
    its pre-flight sections with a table of which at least one row has
    something to narrate, and no directory sits at the final path or at
    an index-named intermediate path, then the tool returns the final
    path, and the file there is a video with one part for each row that
    has something to narrate (rows without text give no part). *)
Theorem benign_run_returns_final_video
    (L : Libs) (rq : Request) (w : World) (rows : list (list cell)) (w0 : World) :
  Benign L →
  loop_entry L rq w rows w0 →
  fs w0 !! final_video_full_path L rq ≠ Some Dir →
  (∀ n q, own_path (output_dir_of L rq) n q → fs w0 !! q ≠ Some Dir) →
  (∃ row, row ∈ rows ∧ narratable L row = true) →
  ∃ clips w',
    create_mcq_video L rq w = (Ok (final_video_full_path L rq), w')
    ∧ fs w' !! final_video_full_path L rq = Some (File (CVideo clips))
    ∧ List.length clips = List.length (List.filter (narratable L) rows).
Proof.
  intros HL Hentry Hfinal Hdirs (row & Hrow & Hnarr).
  pose proof Hentry as (_ & Hfont & w1 & Hmk & Hload).
  apply create_mcq_video_from_loop in Hentry as [-> _].
  assert (Hfont0 : is_Some (fs w0 !! font_path rq)).
  { apply load_data_inv in Hload as (-> & _). simpl.
    apply os_makedirs_inv in Hmk as (_ & [->|(_ & _ & ->)]); [done|].
    destruct (decide (font_path rq = output_dir_of L rq)) as [->|Hne].
    - by rewrite lookup_insert_eq.
    - by rewrite lookup_insert_ne. }
  destruct (process_items_returns L HL rq (output_dir_of L rq) rows 0 [] 0%float
              w0 Hfont0 Hdirs)
    as (new & total & w2 & Hloop & Hadd & Hlen & Hfiles & _).
  simpl in Hloop.
  assert (Hne : new ≠ []).
  { intros ->. simpl in Hlen. symmetry in Hlen. apply length_zero_iff_nil in Hlen.
    apply list_elem_of_In in Hrow.
    assert (In row (List.filter (narratable L) rows))
      by (apply filter_In; by split).
    by rewrite Hlen in *. }
  destruct (concatenate_videos_returns L HL new (final_video_full_path L rq) w2
              Hne Hfiles) as (clips & w3 & Hcat & Hvideo & Hclips).
  { by apply (adds_files_no_dir w0). }
  exists clips, w3. unfold try_except.
  rewrite (process_and_concatenate_after_loop _ _ _ _ _ _ _ Hloop), Hcat.
  destruct new; [done|]. split_and!; [done|done|]. by rewrite Hclips, Hlen.
Qed.

Lemma demo_libs_benign (table : list (list cell)) : Benign (Demo.libs table).
Proof. constructor; intros; try reflexivity. by eexists. Qed.

Lemma benign_run_returns_final_video_witness :
  let L := Demo.libs Demo.blank_then_row in
  ∃ clips w',
    create_mcq_video L Demo.request Demo.world
      = (Ok (final_video_full_path L Demo.request), w')
    ∧ fs w' !! final_video_full_path L Demo.request = Some (File (CVideo clips))
    ∧ List.length clips
      = List.length (List.filter (narratable L) Demo.blank_then_row).
Proof.
  intros L.
  apply (benign_run_returns_final_video L Demo.request Demo.world
           Demo.blank_then_row
           (MkWorld (<["/work/quiz_output" := Dir]> Demo.disk)
              [EvMakedirs "/work/quiz_output"; EvReadCsv "quiz.csv"])).
  - apply demo_libs_benign.
  - split; [by eexists|]. split; [by eexists|].
    eexists. split; vm_compute; reflexivity.
  - vm_compute. discriminate.
  - intros n q Hq Hdir. apply work_paths_under_output_dir in Hq as [H0 H17].
    simpl in Hdir. unfold Demo.disk in Hdir. rewrite !lookup_insert in Hdir.
    repeat case_decide; subst; discriminate.
  - exists [CStr "Q2"; CStr "A"]. split; [|reflexivity].
    apply list_elem_of_In. simpl. auto.
Defined.

(** ** Rows, seen from the loop *)

(** X16.  A row that yields a clip made exactly three outward calls, in
    pipeline order: the render of its image, the narration of the text
    the renderer returned (the slide text of the row, which is not
    empty), and the encoding of its clip from that image and that audio.
    Nothing was removed, and the path it adds to the list is its own
    clip. *)
Theorem clipped_row_calls_in_pipeline_order
    (L : Libs) (rq : Request) (dir : string) (idx : nat) (row : list cell)
    (w : World) (v : string) (d : float) (w' : World) :
  process_item L rq dir idx row w = (Ok (Some (v, d)), w') →
  let n := (idx + 1)%nat in
  let text := slide_text L row DEFAULT_TEXT_WRAP_WIDTH in
  v = video_file dir n
  ∧ Py.is_empty text = false
  ∧ trace w' = trace w ++ [EvRender (image_file dir n);
                           EvNarrate text (language rq) (audio_file dir n);
                           EvEncode (image_file dir n) (audio_file dir n)
                             (video_file dir n)]
  ∧ removed_paths (trace w') = removed_paths (trace w).
Proof.
  intros (-> & Htext & im & _ & _ & Ht)%process_item_clipped n text.
  split_and!; [done..|].
  unfold removed_paths. rewrite Ht, omap_app. simpl. by rewrite List.app_nil_r.
Qed.

Lemma clipped_row_calls_in_pipeline_order_witness :
  let L := Demo.libs [] in
  let row := [CStr "Q1"; CStr "A"] in
  let run := process_item L Demo.request "/work/quiz_output" 0 row Demo.world in
  "/work/quiz_output/mcq_video_1.mp4" = video_file "/work/quiz_output" 1
  ∧ Py.is_empty (slide_text L row DEFAULT_TEXT_WRAP_WIDTH) = false
  ∧ trace run.2
    = trace Demo.world
      ++ [EvRender (image_file "/work/quiz_output" 1);
          EvNarrate (slide_text L row DEFAULT_TEXT_WRAP_WIDTH) "en"
            (audio_file "/work/quiz_output" 1);
          EvEncode (image_file "/work/quiz_output" 1)
            (audio_file "/work/quiz_output" 1) (video_file "/work/quiz_output" 1)]
  ∧ removed_paths (trace run.2) = removed_paths (trace Demo.world).
Proof.
  intros L row run.
  apply (clipped_row_calls_in_pipeline_order L Demo.request "/work/quiz_output"
           0 row Demo.world "/work/quiz_output/mcq_video_1.mp4" 2.5%float run.2).
  vm_compute; reflexivity.
Defined.

Lemma failed_row_is_cleaned_up_and_skipped_witness :
  let L := Demo.libs_offline Demo.two_rows in
  let row := [CStr "Q1: 1+1?"; CStr "A:1"; CStr "B:2"] in
  let run := process_item L Demo.request "/work/quiz_output" 0 row Demo.world in
  run.1 = Ok None
  ∧ ((∃ t, Py.is_empty t = true
           ∧ create_image_for_mcq L row (image_file "/work/quiz_output" 1)
               1920 1080 DEFAULT_BACKGROUND_COLOR DEFAULT_FONT_COLOR 70
               "font.ttf" DEFAULT_LINE_SPACING DEFAULT_MARGIN
               DEFAULT_TEXT_WRAP_WIDTH Demo.world = (Ok t, run.2))
     ∨ (fs run.2 !! image_file "/work/quiz_output" 1 = None
        ∧ fs run.2 !! audio_file "/work/quiz_output" 1 = None
        ∧ fs run.2 !! video_file "/work/quiz_output" 1 = None))
  ∧ process_items L Demo.request "/work/quiz_output" 0 [row; [CStr "Q2"]] []
      0%float Demo.world
    = process_items L Demo.request "/work/quiz_output" 1 [[CStr "Q2"]] []
        0%float run.2.
Proof.
  intros L row run. split; [vm_compute; reflexivity|].
  apply (failed_row_is_cleaned_up_and_skipped L Demo.request "/work/quiz_output"
           0 row [[CStr "Q2"]] [] 0%float Demo.world run.2).
  vm_compute; reflexivity.
Defined.

Section Escapes.

Variable L : Libs.

Lemma remove_if_exists_raises p w e w' :
  remove_if_exists L p w = (Raise e, w') →
  is_Some (fs w !! p) ∧ os_remove L p w = (Raise e, w').
Proof.
  unfold remove_if_exists. rewrite bind_exists.
  destruct (bool_decide (is_Some (fs w !! p))) eqn:Hdec; [|discriminate].
  by apply bool_decide_eq_true in Hdec.
Qed.

End Escapes.

(** X17.  The only exception that can leave the body of the row loop is
    one raised by [os.remove] in the cleanup of a row whose render,
    narration or composition had failed: the removed path is one of the
    three files of that row, and it existed. *)
Theorem row_raises_only_from_cleanup
    (L : Libs) (rq : Request) (dir : string) (idx : nat) (row : list cell)
    (w : World) (e : exn) (w' : World) :
  process_item L rq dir idx row w = (Raise e, w') →
  ∃ p w1, own_path dir (idx + 1) p
          ∧ is_Some (fs w1 !! p)
          ∧ os_remove L p w1 = (Raise e, w').
Proof.
  intros Hrun. unfold process_item in Hrun.
  apply try_inv in Hrun as [(a & _ & ?)|(e0 & w1 & _ & Hh)]; [done|].
  apply bind_inv in Hh as [(? & w2 & _ & Hh)|(e1 & Hr & [= <-])].
  2:{ apply remove_if_exists_raises in Hr as [? ?].
      exists (image_file dir (idx + 1)), w1. split_and!; [by left|done..]. }
  apply bind_inv in Hh as [(? & w3 & _ & Hh)|(e1 & Hr & [= <-])].
  2:{ apply remove_if_exists_raises in Hr as [? ?].
      exists (audio_file dir (idx + 1)), w2. split_and!; [by right; left|done..]. }
  apply bind_inv in Hh as [(? & w4 & _ & Hh)|(e1 & Hr & [= <-])]; [discriminate|].
  apply remove_if_exists_raises in Hr as [? ?].
  exists (video_file dir (idx + 1)), w3. split_and!; [by right; right|done..].
Qed.

Lemma row_raises_only_from_cleanup_witness :
  let L := Demo.libs Demo.two_rows in
  let e := Exn IsADirectoryError
             "[Errno 21] Is a directory: '/work/quiz_output/mcq_img_1.png'" in
  let run := process_item L Demo.request "/work/quiz_output" 0 [CStr "Q1"]
               Demo.world_blocked in
  run.1 = Raise e
  ∧ ∃ p w1, own_path "/work/quiz_output" (0 + 1) p
            ∧ is_Some (fs w1 !! p)
            ∧ os_remove L p w1 = (Raise e, run.2).
Proof.
  intros L e run. split; [vm_compute; reflexivity|].
  apply (row_raises_only_from_cleanup L Demo.request "/work/quiz_output" 0
           [CStr "Q1"] Demo.world_blocked e run.2).
  vm_compute; reflexivity.
Defined.

(** X18.  An exception that leaves the row loop ends the run: the tool
    returns the unexpected-error message with the text of that
    exception, the rows after it are not processed, and the concatenator
    is not called. *)
Theorem escaping_exception_ends_the_run
    (L : Libs) (rq : Request) (w : World) (rows : list (list cell))
    (w0 : World) (e : exn) (w1 : World) :
  loop_entry L rq w rows w0 →
  process_items L rq (output_dir_of L rq) 0 rows [] 0%float w0 = (Raise e, w1) →
  create_mcq_video L rq w = (Ok (msg_unexpected e), w1)
  ∧ concat_calls (trace w1) = concat_calls (trace w).
Proof.
  intros Hentry Hloop.
  apply create_mcq_video_from_loop in Hentry as [-> Ht0]. split.
  - unfold try_except, process_and_concatenate, bind. by rewrite Hloop.
  - destruct (effect_process_items L rq (output_dir_of L rq) rows 0 [] 0%float w0)
      as [_ (evs & Ht & Hev)].
    rewrite Hloop in Ht. simpl in Ht.
    apply item_events_calls in Hev as [Hnone _].
    unfold concat_calls in *. rewrite Ht, Ht0, !omap_app, Hnone. simpl.
    by rewrite !List.app_nil_r.
Qed.

Lemma escaping_exception_ends_the_run_witness :
  let L := Demo.libs Demo.two_rows in
  let e := Exn IsADirectoryError
             "[Errno 21] Is a directory: '/work/quiz_output/mcq_img_1.png'" in
  ∃ w1, create_mcq_video L Demo.request Demo.world_blocked
          = (Ok (msg_unexpected e), w1)
        ∧ concat_calls (trace w1) = concat_calls (trace Demo.world_blocked).
Proof.
  intros L e. eexists.
  eapply (escaping_exception_ends_the_run L Demo.request Demo.world_blocked
            Demo.two_rows _ e _).
  - split; [by eexists|]. split; [by eexists|].
    eexists. split; vm_compute; reflexivity.
  - vm_compute; reflexivity.
Defined.

(** X19.  A run in which no library call fails, on a table none of whose
    rows has anything to narrate.  The tool returns the no-clips message
    and never calls the concatenator; but it has rendered every row: for
    each row the image file with its number is on disk afterwards. *)
Theorem textless_table_leaves_only_slides
    (L : Libs) (rq : Request) (w : World) (rows : list (list cell)) (w0 : World) :
  Benign L →
  loop_entry L rq w rows w0 →
  (∀ n q, own_path (output_dir_of L rq) n q → fs w0 !! q ≠ Some Dir) →
  Forall (λ row, narratable L row = false) rows →
  ∃ w',
    create_mcq_video L rq w = (Ok msg_no_clips, w')
    ∧ concat_calls (trace w') = concat_calls (trace w)
    ∧ ∀ n, (1 ≤ n ≤ List.length rows)%nat →
           ∃ c, fs w' !! image_file (output_dir_of L rq) n = Some (File c).
Proof.
  intros HL Hentry Hdirs Hrows.
  pose proof Hentry as (_ & Hfont & w1 & Hmk & Hload).
  apply create_mcq_video_from_loop in Hentry as [-> Ht0].
  assert (Hfont0 : is_Some (fs w0 !! font_path rq)).
  { apply load_data_inv in Hload as (-> & _). simpl.
    apply os_makedirs_inv in Hmk as (_ & [->|(_ & _ & ->)]); [done|].
    destruct (decide (font_path rq = output_dir_of L rq)) as [->|Hne].
    - by rewrite lookup_insert_eq.
    - by rewrite lookup_insert_ne. }
  destruct (process_items_returns L HL rq (output_dir_of L rq) rows 0 [] 0%float
              w0 Hfont0 Hdirs)
    as (new & total & w2 & Hloop & _ & Hlen & _ & Himgs).
  assert (Hnone : List.filter (narratable L) rows = []).
  { clear -Hrows. induction Hrows as [|row rest Hrow _ IH]; [done|].
    simpl. by rewrite Hrow. }
  rewrite Hnone in Hlen. apply length_zero_iff_nil in Hlen. subst new.
  simpl in Hloop. exists w2. unfold try_except.
  rewrite (process_and_concatenate_after_loop _ _ _ _ _ _ _ Hloop).
  split_and!; [done| |].
  - destruct (process_items_calls _ _ _ _ _ _ _ _ _ _ _ Hloop)
      as (evs & Ht & Hc & _).
    unfold concat_calls in *. rewrite Ht, Ht0, !omap_app, Hc. simpl.
    by rewrite !List.app_nil_r.
  - intros n Hn. apply Himgs. lia.
Qed.

Lemma textless_table_leaves_only_slides_witness :
  let L := Demo.libs [[CStr ""; CStr " "]; [CStr ""]] in
  ∃ w',
    create_mcq_video L Demo.request Demo.world = (Ok msg_no_clips, w')
    ∧ concat_calls (trace w') = concat_calls (trace Demo.world)
    ∧ ∀ n, (1 ≤ n ≤ List.length [[CStr ""; CStr " "]; [CStr ""]])%nat →
           ∃ c, fs w' !! image_file (output_dir_of L Demo.request) n
                = Some (File c).
Proof.
  intros L.
  apply (textless_table_leaves_only_slides L Demo.request Demo.world
           [[CStr ""; CStr " "]; [CStr ""]]
           (MkWorld (<["/work/quiz_output" := Dir]> Demo.disk)
              [EvMakedirs "/work/quiz_output"; EvReadCsv "quiz.csv"])).
  - apply demo_libs_benign.
  - split; [by eexists|]. split; [by eexists|].
    eexists. split; vm_compute; reflexivity.
  - intros n q Hq Hdir. apply work_paths_under_output_dir in Hq as [H0 H17].
    simpl in Hdir. unfold Demo.disk in Hdir. rewrite !lookup_insert in Hdir.
    repeat case_decide; subst; discriminate.
  - by repeat constructor.
Defined.

(** ** The rows that reach the loop *)

Section LoadedRows.

Lemma dropna_all_sublist (table : list (list cell)) :
  sublist (dropna_all table) table.
Proof.
  induction table as [|row rest IH]; [done|]. unfold dropna_all in *. simpl.
  destruct (negb _); by constructor.
Qed.

Lemma not_all_na (row : list cell) :
  forallb isna row = false ↔ ∃ c, c ∈ row ∧ isna c = false.
Proof.
  induction row as [|c rest IH]; simpl.
  - split; [done|]. intros (c & Hc & _). by apply elem_of_nil in Hc.
  - destruct (isna c) eqn:Hc; simpl.
    + rewrite IH. split.
      * intros (c' & Hin & Hc'). exists c'. split; [by right|done].
      * intros (c' & [->|Hin]%elem_of_cons & Hc'); [congruence|by exists c'].
    + split; [|done]. intros _. exists c. split; [by left|done].
Qed.

Lemma dropna_all_keeps (table : list (list cell)) (row : list cell) :
  row ∈ dropna_all table ↔ row ∈ table ∧ ∃ c, c ∈ row ∧ isna c = false.
Proof.
  unfold dropna_all. rewrite <- not_all_na, !list_elem_of_In, filter_In.
  by rewrite negb_true_iff.
Qed.

End LoadedRows.

(** X20.  When the tool enters the row loop, the list of rows is not
    empty, and it is the table that [pd.read_csv] returned without the
    rows whose cells are all NaN, in the order of the table: a row of the
    table reaches the loop exactly when one of its cells is not NaN.  So
    a row of empty strings is not dropped. *)
Theorem loop_runs_on_the_kept_rows
    (L : Libs) (rq : Request) (w : World) (rows : list (list cell)) (w0 : World) :
  loop_entry L rq w rows w0 →
  (∃ row rest, rows = row :: rest)
  ∧ ∃ w1 table,
      pd_read_csv L (add_event (EvReadCsv (csv_file_path rq)) w1)
        (csv_file_path rq) = inr table
      ∧ sublist rows table
      ∧ ∀ row, row ∈ rows ↔ row ∈ table ∧ ∃ c, c ∈ row ∧ isna c = false.
Proof.
  intros (_ & _ & w1 & _ & Hload).
  apply load_data_inv in Hload as (_ & Hr).
  destruct (pd_read_csv L _ _) as [e|table] eqn:Hread; [done|].
  destruct (df_empty (dropna_all table)) eqn:Hempty; [done|].
  inversion Hr; subst rows; clear Hr. split.
  - destruct (dropna_all table) as [|row rest]; [done|]. by exists row, rest.
  - exists w1, table. split_and!; [done|apply dropna_all_sublist|].
    intros row. apply dropna_all_keeps.
Qed.

Lemma loop_runs_on_the_kept_rows_witness :
  let L := Demo.libs [[CNaN; CNaN]; [CStr ""; CNaN]; [CStr "Q"; CStr "A"]] in
  let rows := [[CStr ""; CNaN]; [CStr "Q"; CStr "A"]] in
  (∃ row rest, rows = row :: rest)
  ∧ ∃ w1 table,
      pd_read_csv L (add_event (EvReadCsv "quiz.csv") w1) "quiz.csv" = inr table
      ∧ sublist rows table
      ∧ ∀ row, row ∈ rows ↔ row ∈ table ∧ ∃ c, c ∈ row ∧ isna c = false.
Proof.
  intros L rows.
  eapply (loop_runs_on_the_kept_rows L Demo.request Demo.world rows _).
  split; [by eexists|]. split; [by eexists|].
  eexists. split; vm_compute; reflexivity.
Defined.
